(** * Synchronizers dashboard: a shallow embedding of [dashboard.py]

    The development follows the layout of the source file: the Python
    values the program handles, the fetch helper, the widgets, and the
    application with its refresh cycle and its countdown tick. *)

From Stdlib Require Import List String Ascii Bool ZArith QArith Qround Lia.
From Stdlib Require Import Permutation Sorted SpecFloat DecimalString.
From Stdlib Require Import OrderedTypeEx Lqa.
From Stdlib Require DecimalPos DecimalZ.
Import ListNotations.

Local Open Scope string_scope.
Local Open Scope Z_scope.

(** ** Python values

    What [resp.json()] can return: JSON [null] is [None], numbers are
    [int] or [float] (a binary64 value in its sign, mantissa and exponent
    form), objects are dicts.  A dict keeps its items in
    insertion order; [dict_get] returns the first binding of a key.
    Strings are held as their UTF-8 bytes, whose bytewise order is the
    code-point order Python compares strings with. *)

#[local] Unset Elimination Schemes.
Inductive value : Type :=
| VNone
| VBool (b : bool)
| VInt (n : Z)
| VFloat (x : spec_float)
| VStr (s : string)
| VList (l : list value)
| VDict (d : list (string * value)).
#[local] Set Elimination Schemes.

Definition type_name (v : value) : string :=
  match v with
  | VNone => "NoneType"
  | VBool _ => "bool"
  | VInt _ => "int"
  | VFloat _ => "float"
  | VStr _ => "str"
  | VList _ => "list"
  | VDict _ => "dict"
  end.

(** Truth value testing, as [if x:] and [x or y] do it. *)
Definition truthy (v : value) : bool :=
  match v with
  | VNone => false
  | VBool b => b
  | VInt n => negb (n =? 0)
  | VFloat x => match x with S754_zero _ => false | _ => true end
  | VStr s => negb (String.eqb s EmptyString)
  | VList l => match l with [] => false | _ :: _ => true end
  | VDict d => match d with [] => false | _ :: _ => true end
  end.

Definition py_or (a b : value) : value := if truthy a then a else b.

Fixpoint dict_get (d : list (string * value)) (k : string) : option value :=
  match d with
  | [] => None
  | (k', v) :: rest => if String.eqb k' k then Some v else dict_get rest k
  end.

(** ** Exceptions

    An exception carries the name of its class and its message.
    [exn_is_Exception] tells whether the class derives from [Exception];
    [except Exception] lets the others (cancellation, keyboard
    interrupt) through. *)

Record exn : Type := mkExn {
  exn_name : string;
  exn_msg : string;
  exn_is_Exception : bool
}.

Inductive result (A : Type) : Type :=
| Ok (a : A)
| Raise (e : exn).
Arguments Ok {A} a.
Arguments Raise {A} e.

Definition bind {A B : Type} (r : result A) (k : A -> result B) : result B :=
  match r with
  | Ok a => k a
  | Raise e => Raise e
  end.

Notation "x <- r ;; k" := (bind r (fun x => k))
  (at level 61, r at next level, right associativity).
Notation "' p <- r ;; k" := (bind r (fun x => match x with p => k end))
  (at level 61, p pattern, r at next level, right associativity).

Definition AttributeError (v : value) (attr : string) : exn :=
  mkExn "AttributeError"
        ("'" ++ type_name v ++ "' object has no attribute '" ++ attr ++ "'")
        true.

Definition TypeError (msg : string) : exn := mkExn "TypeError" msg true.

(** [v.get(k, default)]: only dicts have the method. *)
Definition get (v : value) (k : string) (default : value) : result value :=
  match v with
  | VDict d => Ok (match dict_get d k with Some x => x | None => default end)
  | _ => Raise (AttributeError v "get")
  end.

(** ** The HTTP exchange

    [client.get] either raises or hands back a response.  Of the response
    the program uses [raise_for_status()] and [json()]; the record holds
    the status code, the message httpx gives the [HTTPStatusError] of this
    response, and what [json()] does on its body.  [raise_for_status()]
    raises on every status outside 200..299. *)

Record response : Type := mkResponse {
  status_code : Z;
  status_error_msg : string;
  json : result value
}.

Definition is_success (status : Z) : bool :=
  (200 <=? status) && (status <=? 299).

Definition raise_for_status (resp : response) : result unit :=
  if is_success (status_code resp) then Ok tt
  else Raise (mkExn "HTTPStatusError" (status_error_msg resp) true).

Definition REFRESH_EVERY : Z := 60.

(** ** Helpers: [fetch_synchronizers] *)

(** The body of the [try] block.  [Ok (Some r)] is the [return] inside
    the [if]; [Ok None] falls out of the block. *)
Definition fetch_try (got : result response)
  : result (option (value * value)) :=
  resp <- got ;;
  _ <- raise_for_status resp ;;
  data <- json resp ;;
  success <- get data "success" VNone ;;
  if truthy success then
    syncs <- get data "synchronizers" (VList []) ;;
    owner <- get data "owner" (VDict []) ;;
    wallet <- get owner "walletAddress" VNone ;;
    Ok (Some (syncs, wallet))
  else Ok None.

(** The line [print(f"[fetch] {type(exc).__name__}: {exc}", file=sys.stderr)]. *)
Definition fetch_diagnostic (exc : exn) : string :=
  "[fetch] " ++ exn_name exc ++ ": " ++ exn_msg exc.

(** [fetch_synchronizers]: what is printed to the error stream, one
    entry for each call of [print] (an entry holds the line breaks of the
    message it prints), and the outcome of the call. *)
Definition fetch_synchronizers (got : result response)
  : list string * result (value * value) :=
  match fetch_try got with
  | Ok (Some r) => ([], Ok r)
  | Ok None => ([], Ok (VList [], VNone))
  | Raise exc =>
      if exn_is_Exception exc
      then ([fetch_diagnostic exc], Ok (VList [], VNone))
      else ([], Raise exc)
  end.

Definition fetch_result (got : result response) : result (value * value) :=
  snd (fetch_synchronizers got).

Definition fetch_log (got : result response) : list string :=
  fst (fetch_synchronizers got).

(** ** Built-ins used by the widgets and by the refresh cycle

    [str()] of a float or of a container and [<] between a float and a
    number or between two lists are left to the interpreter: the
    development takes them as [str_other] and [lt_other] and does not
    depend on what they return.  So is the binary64 sum of two floats,
    [float_add]: it is the exact sum rounded to the nearest float, and
    what is stated about it below is stated as a condition. *)

Section PythonRuntime.

Variable str_other : value -> string.
Variable lt_other : value -> value -> result bool.
Variable float_add : Q -> Q -> Q.

Definition py_str (v : value) : string :=
  match v with
  | VNone => "None"
  | VBool true => "True"
  | VBool false => "False"
  | VInt n => NilZero.string_of_int (Z.to_int n)
  | VStr s => s
  | VFloat _ | VList _ | VDict _ => str_other v
  end.

Definition int_value (v : value) : Z :=
  match v with
  | VBool true => 1
  | VInt n => n
  | _ => 0
  end.

(** [a < b].  Strings compare lexicographically, [bool] and [int]
    numerically; [None], dicts and operands of unrelated types raise. *)
Definition py_lt (a b : value) : result bool :=
  match a, b with
  | VStr s, VStr t => Ok (String.ltb s t)
  | (VBool _ | VInt _), (VBool _ | VInt _) => Ok (int_value a <? int_value b)
  | VFloat _, (VBool _ | VInt _ | VFloat _)
  | (VBool _ | VInt _), VFloat _
  | VList _, VList _ => lt_other a b
  | _, _ =>
      Raise (TypeError ("'<' not supported between instances of '"
                        ++ type_name a ++ "' and '" ++ type_name b ++ "'"))
  end.

(** What [sorted] sees when it iterates over a value: the items of a
    list, the keys of a dict, the characters of a string (one per byte
    here; each is a [str] either way). *)
Definition py_iter (v : value) : result (list value) :=
  match v with
  | VList l => Ok l
  | VDict d => Ok (map (fun kv => VStr (fst kv)) d)
  | VStr s =>
      Ok (map (fun c => VStr (String c EmptyString)) (list_ascii_of_string s))
  | _ => Raise (TypeError ("'" ++ type_name v ++ "' object is not iterable"))
  end.

Fixpoint map_result {A B : Type} (f : A -> result B) (l : list A)
  : result (list B) :=
  match l with
  | [] => Ok []
  | a :: rest => b <- f a ;; bs <- map_result f rest ;; Ok (b :: bs)
  end.

(** [sorted(iterable, key=...)] computes every key first, then sorts on
    the keys with [<] only and is stable.  On keys that [<] orders
    totally, CPython's merge sort returns the list built here by stable
    insertion: a new item goes in front of the first item whose key is
    greater than its own.  On keys of mixed types both raise, but
    CPython may reach another pair of keys first, so with three or more
    items the message of the [TypeError] can name other types than the
    one raised here; with two items the one comparison made is the
    same, the later key against the earlier. *)
Fixpoint insert_keyed (x : value * value) (acc : list (value * value))
  : result (list (value * value)) :=
  match acc with
  | [] => Ok [x]
  | y :: rest =>
      below <- py_lt (fst x) (fst y) ;;
      if below then Ok (x :: y :: rest)
      else (r <- insert_keyed x rest ;; Ok (y :: r))
  end.

Fixpoint sort_keyed (acc l : list (value * value))
  : result (list (value * value)) :=
  match l with
  | [] => Ok acc
  | x :: rest => acc' <- insert_keyed x acc ;; sort_keyed acc' rest
  end.

Definition sorted (iterable : value) (key : value -> result value)
  : result (list value) :=
  items <- py_iter iterable ;;
  keyed <- map_result (fun s => k <- key s ;; Ok (k, s)) items ;;
  ordered <- sort_keyed [] keyed ;;
  Ok (map snd ordered).

(** ** Widgets *)

(** [SynchronizerWidget]: one card; [data] is the record it was built from. *)
Record SynchronizerWidget : Type := mkSynchronizerWidget {
  data : value
}.

(** [SynchronizerWidget.render]: the rows added to the two-column grid,
    label first. *)
Fixpoint render_fields (d : value) (fields : list string)
    (table : list (string * string)) : result (list (string * string)) :=
  match fields with
  | [] => Ok table
  | field :: rest =>
      v <- get d field (VStr "—") ;;
      let label := "[bold]" ++ field ++ "[/]" in
      render_fields d rest (table ++ [(label, py_str v)])%list
  end.

Definition render (w : SynchronizerWidget) : result (list (string * string)) :=
  render_fields (data w) ["id"; "key"; "name"; "isEnabled"] [].

(** The header is Textual's [Header] when the import found one, and a
    [Static] showing the title otherwise.  [sub_title] is [None] when the
    [Header] class of the installed Textual has no such attribute. *)
Inductive header_widget : Type :=
| TextualHeader (sub_title : option value)
| StaticHeader (text : string).

(** A [Horizontal] row and the cards mounted in it. *)
Definition row : Type := list SynchronizerWidget.

(** ** Application *)

(** The state of a mounted [Dashboard]: the header, the children of the
    scroll body, the footer's [remaining], the deadline, and what has
    been printed to the error stream, one entry for each call of
    [print].  A clock reading ([time.time()]) is the rational a float
    stands for, in seconds; the deadline is the float the sum
    [time.time() + REFRESH_EVERY] rounds to. *)
Record Dashboard : Type := mkDashboard {
  header : header_widget;
  body : list row;
  footer_remaining : Z;
  next_refresh_epoch : Q;
  stderr : list string
}.

Definition APP_TITLE : string := "Synchronizers Dashboard".

Definition _set_footer_countdown (st : Dashboard) (remaining : Z)
  : Dashboard :=
  mkDashboard (header st) (body st) remaining (next_refresh_epoch st)
              (stderr st).

Definition _update_header_wallet (st : Dashboard) (wallet : value)
  : Dashboard :=
  match header st with
  | TextualHeader (Some _) =>
      mkDashboard (TextualHeader (Some (py_or wallet (VStr EmptyString))))
                  (body st) (footer_remaining st) (next_refresh_epoch st)
                  (stderr st)
  | _ => st
  end.

(** [_clear_body]: every child of the snapshot [list(self.body.children)]
    is removed in turn; each is the first child still mounted. *)
Definition _clear_body (st : Dashboard) : Dashboard :=
  mkDashboard (header st)
              (fold_left (fun children _ => tl children) (body st) (body st))
              (footer_remaining st) (next_refresh_epoch st) (stderr st).

(** [row.mount(widget)] for the row at position [i] of the body. *)
Fixpoint mount_in_row (children : list row) (i : nat) (w : SynchronizerWidget)
  : list row :=
  match children, i with
  | [], _ => []
  | r :: rest, O => (r ++ [w])%list :: rest
  | r :: rest, S j => r :: mount_in_row rest j w
  end.

(** The loop of [_populate_sync_rows].  [current] is the variable [row]:
    [None], or the position in the body of the row it refers to.  A row
    object has no truth value of its own, so [if row:] holds as soon as
    the variable is bound to one. *)
Fixpoint populate_loop (children : list row) (current : option nat)
    (idx : nat) (syncs : list value) : list row :=
  match syncs with
  | [] => children
  | sync :: rest =>
      let '(children, current) :=
        if (idx mod 3 =? 0)%nat
        then ((children ++ [[]])%list, Some (List.length children))
        else (children, current) in
      let widget := mkSynchronizerWidget sync in
      let children :=
        match current with
        | Some i => mount_in_row children i widget
        | None => children
        end in
      populate_loop children current (S idx) rest
  end.

Definition _populate_sync_rows (st : Dashboard) (syncs : list value)
  : Dashboard :=
  mkDashboard (header st) (populate_loop (body st) None 0 syncs)
              (footer_remaining st) (next_refresh_epoch st) (stderr st).

(** [int(x)] on a clock difference: truncation toward zero. *)
Definition py_int (x : Q) : Z := Z.quot (Qnum x) (Zpos (Qden x)).

(** [refresh_widgets]; [got] is what [client.get] does in this cycle and
    [now] the clock reading taken once the rows are in place.  The
    deadline stored is the float sum [now + REFRESH_EVERY]. *)
Definition refresh_widgets (st : Dashboard) (got : result response) (now : Q)
  : result Dashboard :=
  let '(printed, fetched) := fetch_synchronizers got in
  let st := mkDashboard (header st) (body st) (footer_remaining st)
                        (next_refresh_epoch st) (stderr st ++ printed)%list in
  '(syncs, wallet) <- fetched ;;
  syncs <- sorted syncs (fun s => get s "name" (VStr EmptyString)) ;;
  let st := _update_header_wallet st wallet in
  let st := _clear_body st in
  let st := _populate_sync_rows st syncs in
  let st := mkDashboard (header st) (body st) (footer_remaining st)
                        (float_add now (inject_Z REFRESH_EVERY)) (stderr st) in
  Ok (_set_footer_countdown st REFRESH_EVERY).

(** [_tick] at clock reading [now].  The difference of the deadline and
    the reading is taken exactly, as binary64 subtraction gives it for
    two floats within a factor of two of each other. *)
Definition _tick (st : Dashboard) (now : Q) : Dashboard :=
  let remaining := Z.max 0 (py_int (next_refresh_epoch st - now)%Q) in
  _set_footer_countdown st remaining.

(** [__init__] at clock reading [created], then the layout composed by
    [on_mount] with the footer set to the period.  [header_class] is the
    [Header] class the imports found, if any, given by the [sub_title]
    its instances start with. *)
Definition compose_layout (header_class : option (option value)) (created : Q)
  : Dashboard :=
  let hdr :=
    match header_class with
    | Some sub => TextualHeader sub
    | None => StaticHeader APP_TITLE
    end in
  let st := mkDashboard hdr [] REFRESH_EVERY
                        (float_add created (inject_Z REFRESH_EVERY)) [] in
  _set_footer_countdown st REFRESH_EVERY.

(** [on_mount]: the layout, then the initial refresh. *)
Definition on_mount (header_class : option (option value)) (created : Q)
    (got : result response) (now : Q) : result Dashboard :=
  refresh_widgets (compose_layout header_class created) got now.

(** The two timers started by [on_mount]. *)
Inductive event : Type :=
| RefreshFired (got : result response) (now : Q)
| TickFired (now : Q).


Definition handle (st : Dashboard) (ev : event) : result Dashboard :=
  match ev with
  | RefreshFired got now => refresh_widgets st got now
  | TickFired now => Ok (_tick st now)
  end.

Fixpoint run (st : Dashboard) (evs : list event) : result Dashboard :=
  match evs with
  | [] => Ok st
  | ev :: rest => st' <- handle st ev ;; run st' rest
  end.

End PythonRuntime.

(** ** Classes of responses *)

Definition is_dict (v : value) : bool :=
  match v with VDict _ => true | _ => false end.

Definition is_str (v : value) : bool :=
  match v with VStr _ => true | _ => false end.

Definition is_bool (v : value) : bool :=
  match v with VBool _ => true | _ => false end.

(** The envelope, following the words of the specification: an object
    with a boolean [success], an array of objects [synchronizers]
    (absent allowed) and an object [owner] (absent allowed) whose
    [walletAddress], when there, is a string. *)
Definition expected_envelope (v : value) : bool :=
  match v with
  | VDict d =>
      match dict_get d "success" with
      | Some s => is_bool s
      | None => false
      end
      && match dict_get d "synchronizers" with
         | Some (VList l) => forallb is_dict l
         | Some _ => false
         | None => true
         end
      && match dict_get d "owner" with
         | Some (VDict o) =>
             match dict_get o "walletAddress" with
             | Some w => is_str w
             | None => true
             end
         | Some _ => false
         | None => true
         end
  | _ => false
  end.

(** The field [success] as [data.get("success")] reads it. *)
Definition success_field (d : list (string * value)) : value :=
  match dict_get d "success" with Some s => s | None => VNone end.

(** The exchanges on which [fetch_synchronizers] leaves its [try] block
    without reaching the inner [return]. *)
Inductive fetch_failure : result response -> Prop :=
| transport_error (e : exn) :
    exn_is_Exception e = true -> fetch_failure (Raise e)
| status_error (resp : response) :
    is_success (status_code resp) = false -> fetch_failure (Ok resp)
| json_error (resp : response) (e : exn) :
    json resp = Raise e -> exn_is_Exception e = true ->
    fetch_failure (Ok resp)
| body_not_object (resp : response) (v : value) :
    json resp = Ok v -> is_dict v = false -> fetch_failure (Ok resp)
| success_not_set (resp : response) (d : list (string * value)) :
    json resp = Ok (VDict d) -> truthy (success_field d) = false ->
    fetch_failure (Ok resp)
| owner_not_object (resp : response) (d : list (string * value)) (o : value) :
    json resp = Ok (VDict d) -> dict_get d "owner" = Some o ->
    is_dict o = false -> fetch_failure (Ok resp).

(** What the inner [return] hands back for a body [d]. *)
Definition synchronizers_field (d : list (string * value)) : value :=
  match dict_get d "synchronizers" with Some l => l | None => VList [] end.

Definition wallet_field (d : list (string * value)) : value :=
  match dict_get d "owner" with
  | Some (VDict o) =>
      match dict_get o "walletAddress" with Some w => w | None => VNone end
  | _ => VNone
  end.

Definition owner_readable (d : list (string * value)) : bool :=
  match dict_get d "owner" with
  | Some o => is_dict o
  | None => true
  end.

(** ** Records and their names *)

(** What the sort key, [name] with the empty string as its default,
    evaluates to on a dict. *)
Definition name_of (s : value) : value :=
  match s with
  | VDict d =>
      match dict_get d "name" with
      | Some n => n
      | None => VStr EmptyString
      end
  | _ => VNone
  end.

Definition str_of (v : value) : string :=
  match v with VStr s => s | _ => EmptyString end.

(** The name a record is ordered by: its [name], the empty string when
    it has none. *)
Definition name_key (s : value) : string := str_of (name_of s).

(** A record whose [name] is absent or a string. *)
Definition named_record (s : value) : bool := is_dict s && is_str (name_of s).

Definition name_le (a b : value) : Prop :=
  String.leb (name_key a) (name_key b) = true.

Definition has_name (k : string) (s : value) : bool :=
  String.eqb (name_key s) k.

(** The same on the pairs of key and item that [sorted] orders. *)
Definition str_keyed (p : value * value) : Prop := is_str (fst p) = true.

Definition key_le (p q : value * value) : Prop :=
  String.leb (str_of (fst p)) (str_of (fst q)) = true.

Definition key_lt (p q : value * value) : Prop :=
  String.ltb (str_of (fst p)) (str_of (fst q)) = true.

Definition has_key (k : string) (p : value * value) : bool :=
  String.eqb (str_of (fst p)) k.

Definition keyed (s : value) : value * value := (name_of s, s).

(** The records on display, in reading order. *)
Definition displayed (st : Dashboard) : list value :=
  map data (List.concat (body st)).

(** ** Rows, following the words of the specification *)

(** Records grouped into rows of at most three. *)
Fixpoint rows_of {A : Type} (l : list A) : list (list A) :=
  match l with
  | a :: b :: c :: rest => [a; b; c] :: rows_of rest
  | [] => []
  | short => [short]
  end.

Definition ceil_div (n d : nat) : nat := ((n + d - 1) / d)%nat.

(** ** Clock readings *)





(** ** Stand-ins for closed examples

    The examples below need the built-ins left open above to be fixed.
    No example reaches [str_unused] or [lt_unused]; the readings the
    examples add the period to are whole numbers of seconds, on which
    the float sum is the exact sum, [sum_exact]. *)

Definition sum_exact (a b : Q) : Q := (a + b)%Q.

Definition str_unused (v : value) : string := "<" ++ type_name v ++ ">".

Definition lt_unused (a b : value) : result bool :=
  Raise (TypeError "comparison left open").

(** ** Cards and countdown on display *)

(** The text a card shows beside the label of [field]. *)
Definition field_text (str_other : value -> string)
    (d : list (string * value)) (field : string) : string :=
  match dict_get d field with
  | Some v => py_str str_other v
  | None => "—"
  end.


(** The subtitle a header carries, if it has one. *)
Definition sub_title_of (h : header_widget) : option value :=
  match h with
  | TextualHeader sub => sub
  | StaticHeader _ => None
  end.


(** ** Further definitions for the properties of the whole program *)

(** [FooterBar.render]: the text of the footer for a given [remaining]. *)
Definition FooterBar_render (remaining : Z) : string :=
  "Auto‑refresh in: " ++ NilZero.string_of_int (Z.to_int remaining)
  ++ "s  •  Press Q to quit".

(** The number read back from a decimal numeral, as [int(text)] does. *)
Definition int_of_text (text : string) : option Z :=
  option_map Z.of_int (NilZero.int_of_string text).

(** A record whose [name] is absent, a string or [None]. *)
Definition nullable_name (s : value) : bool :=
  is_dict s
  && match name_of s with VStr _ | VNone => true | _ => false end.

Definition null_name (s : value) : bool :=
  is_dict s && match name_of s with VNone => true | _ => false end.

(** Values [sorted] cannot iterate over. *)
Definition not_iterable (v : value) : bool :=
  match v with
  | VNone | VBool _ | VInt _ | VFloat _ => true
  | _ => false
  end.

(** The clock readings of a list of ticks, as timer events. *)
Definition tick_events (readings : list Q) : list event :=
  map TickFired readings.

(** Keys that are a string or [None], on the pairs [sorted] orders. *)
Definition nullable_key (p : value * value) : Prop :=
  match fst p with VStr _ | VNone => True | _ => False end.

Definition null_key (p : value * value) : Prop := fst p = VNone.

Definition raises_TypeError {A : Type} (r : result A) : Prop :=
  exists msg, r = Raise (mkExn "TypeError" msg true).

(** The number of refresh events in a list of timer events. *)
Fixpoint refreshes (evs : list event) : nat :=
  match evs with
  | [] => O
  | RefreshFired _ _ :: rest => S (refreshes rest)
  | TickFired _ :: rest => refreshes rest
  end.

(** * String order *)

Lemma string_leb_lt_or_eq (a b : string) :
  String.leb a b = true <-> String_as_OT.lt a b \/ a = b.
Proof.
  unfold String.leb. split.
  - destruct (String.compare a b) eqn:E; try discriminate; intros _.
    + right. apply String_as_OT.cmp_eq. exact E.
    + left. apply String_as_OT.cmp_lt. exact E.
  - intros [H | H].
    + apply String_as_OT.cmp_lt in H. unfold String_as_OT.cmp in H.
      rewrite H. reflexivity.
    + apply String_as_OT.cmp_eq in H. unfold String_as_OT.cmp in H.
      rewrite H. reflexivity.
Qed.

Lemma string_ltb_lt (a b : string) :
  String.ltb a b = true <-> String_as_OT.lt a b.
Proof.
  unfold String.ltb. rewrite <- String_as_OT.cmp_lt. unfold String_as_OT.cmp.
  destruct (String.compare a b); split; intros H; try reflexivity;
    discriminate.
Qed.

Lemma string_leb_trans (a b c : string) :
  String.leb a b = true -> String.leb b c = true -> String.leb a c = true.
Proof.
  rewrite !string_leb_lt_or_eq. intros [H1 | ->] [H2 | ->]; auto.
  left. eapply String_as_OT.lt_trans; eassumption.
Qed.

Lemma string_ltb_false_leb (a b : string) :
  String.ltb a b = false -> String.leb b a = true.
Proof.
  unfold String.ltb, String.leb. rewrite (String.compare_antisym a b).
  destruct (String.compare b a); simpl; intros H; try reflexivity;
    discriminate.
Qed.

Lemma string_ltb_leb (a b : string) :
  String.ltb a b = true -> String.leb a b = true.
Proof.
  unfold String.ltb, String.leb.
  destruct (String.compare a b); intros H; try reflexivity; discriminate.
Qed.

Lemma string_ltb_neq (a b : string) :
  String.ltb a b = true -> String.eqb b a = false.
Proof.
  intros H. apply String.eqb_neq. intros ->.
  apply string_ltb_lt in H. exact (String_as_OT.lt_not_eq _ _ H eq_refl).
Qed.

(** * Properties of [fetch_synchronizers] *)

Lemma get_not_dict (v : value) (k : string) (dflt : value) :
  is_dict v = false -> get v k dflt = Raise (AttributeError v "get").
Proof. destruct v; simpl; intros H; try reflexivity; discriminate. Qed.

Lemma fetch_try_failure (got : result response) :
  fetch_failure got ->
  fetch_try got = Ok None \/
  exists e, fetch_try got = Raise e /\ exn_is_Exception e = true.
Proof.
  intros H. destruct H as [e He | resp Hs | resp e Hj He | resp v Hj Hv
                          | resp d Hj Ht | resp d o Hj Ho Hd];
    unfold fetch_try; simpl.
  - right. exists e. split; [reflexivity | exact He].
  - right. unfold raise_for_status. rewrite Hs. simpl.
    eexists. split; reflexivity.
  - unfold raise_for_status.
    destruct (is_success (status_code resp)); simpl.
    + rewrite Hj. simpl. right. exists e. split; [reflexivity | exact He].
    + right. eexists. split; reflexivity.
  - unfold raise_for_status.
    destruct (is_success (status_code resp)); simpl.
    + rewrite Hj. simpl. rewrite (get_not_dict v _ _ Hv). simpl.
      right. eexists. split; reflexivity.
    + right. eexists. split; reflexivity.
  - unfold raise_for_status.
    destruct (is_success (status_code resp)); simpl.
    + rewrite Hj. simpl. fold (success_field d). rewrite Ht.
      left. reflexivity.
    + right. eexists. split; reflexivity.
  - unfold raise_for_status.
    destruct (is_success (status_code resp)); simpl.
    + rewrite Hj. simpl. fold (success_field d).
      destruct (truthy (success_field d)); [| left; reflexivity].
      simpl. rewrite Ho. rewrite (get_not_dict o _ _ Hd). simpl.
      right. eexists. split; reflexivity.
    + right. eexists. split; reflexivity.
Qed.

Lemma fetch_failure_result (got : result response) :
  fetch_failure got -> fetch_result got = Ok (VList [], VNone).
Proof.
  intros H. unfold fetch_result, fetch_synchronizers.
  destruct (fetch_try_failure got H) as [E | [e [E He]]]; rewrite E.
  - reflexivity.
  - rewrite He. reflexivity.
Qed.

Lemma fetch_success_result (resp : response) (d : list (string * value)) :
  is_success (status_code resp) = true ->
  json resp = Ok (VDict d) ->
  truthy (success_field d) = true ->
  owner_readable d = true ->
  fetch_synchronizers (Ok resp) = ([], Ok (synchronizers_field d, wallet_field d)).
Proof.
  intros Hs Hj Ht Ho.
  unfold fetch_synchronizers, fetch_try, raise_for_status. simpl.
  rewrite Hs. simpl. rewrite Hj. simpl. fold (success_field d). rewrite Ht.
  simpl. fold (synchronizers_field d).
  unfold owner_readable in Ho. unfold wallet_field.
  destruct (dict_get d "owner") as [o |]; simpl.
  - destruct o; try discriminate Ho. reflexivity.
  - reflexivity.
Qed.

(** Only an exception outside [Exception] ever leaves the helper. *)
Lemma fetch_raises_only_base_exceptions (got : result response) (e : exn) :
  fetch_result got = Raise e -> exn_is_Exception e = false.
Proof.
  unfold fetch_result, fetch_synchronizers.
  destruct (fetch_try got) as [[r |] | x]; simpl; try discriminate.
  destruct (exn_is_Exception x) eqn:Hx; simpl; try discriminate.
  intros H. injection H as <-. exact Hx.
Qed.

(** C1 (amended): when the request raises a transport error, the status
    is outside 200..299, the body is not JSON, the JSON is not an object,
    its [success] is absent or falsy, or its [owner] is there and is not
    an object, [fetch_synchronizers] returns the empty list and [None]
    and raises nothing. *)
Theorem fetch_degrades_to_empty (got : result response)
    (H : fetch_failure got) :
  fetch_result got = Ok (VList [], VNone).
Proof.
  unfold fetch_result, fetch_synchronizers.
  destruct (fetch_try_failure got H) as [Hfalls | [e [Hraised Hcaught]]].
  - rewrite Hfalls. reflexivity.
  - rewrite Hraised, Hcaught. reflexivity.
Qed.

Lemma fetch_degrades_to_empty_witness :
  fetch_result (Raise (mkExn "ReadTimeout" "The read operation timed out" true))
  = Ok (VList [], VNone).
Proof.
  apply fetch_degrades_to_empty. apply transport_error. reflexivity.
Defined.

(** C1 as stated fails: a body whose [success] is a string and which has
    no [owner] is not the expected envelope, and its records are
    returned all the same. *)
Lemma fetch_keeps_misshapen_body :
  let records := VList [VDict [("name", VStr "a")]] in
  let body := VDict [("success", VStr "false"); ("synchronizers", records)] in
  let got := Ok (mkResponse 200 EmptyString (Ok body)) in
  expected_envelope body = false /\
  fetch_result got = Ok (records, VNone) /\
  fetch_result got <> Ok (VList [], VNone).
Proof.
  simpl. split; [reflexivity | split; [reflexivity | discriminate]].
Qed.

(** C2: for a body that is an object with a boolean [success]: when it is
    false the result is the empty list and [None]; a result other than
    that is only returned when it is true, and is then the field
    [synchronizers] (the empty list when absent) with
    [owner.walletAddress] ([None] when absent); and when it is true, with
    a status in 200..299 and an [owner] that is absent or an object, that
    pair is what comes back. *)
Theorem fetch_success_flag (resp : response) (d : list (string * value))
    (b : bool)
    (Hjson : json resp = Ok (VDict d))
    (Hflag : dict_get d "success" = Some (VBool b)) :
  (b = false -> fetch_result (Ok resp) = Ok (VList [], VNone)) /\
  (fetch_result (Ok resp) <> Ok (VList [], VNone) ->
     b = true /\
     fetch_result (Ok resp) = Ok (synchronizers_field d, wallet_field d)) /\
  (b = true -> is_success (status_code resp) = true ->
     owner_readable d = true ->
     fetch_result (Ok resp) = Ok (synchronizers_field d, wallet_field d)).
Proof.
  assert (Hsf : success_field d = VBool b)
    by (unfold success_field; rewrite Hflag; reflexivity).
  split; [| split].
  - intros ->. apply fetch_failure_result.
    apply success_not_set with (d := d); [exact Hjson |].
    rewrite Hsf. reflexivity.
  - intros Hne.
    destruct b.
    + split; [reflexivity |].
      destruct (is_success (status_code resp)) eqn:Hs.
      * destruct (owner_readable d) eqn:Ho.
        -- unfold fetch_result.
           rewrite (fetch_success_result resp d Hs Hjson); auto.
           rewrite Hsf. reflexivity.
        -- exfalso. apply Hne. apply fetch_failure_result.
           unfold owner_readable in Ho.
           destruct (dict_get d "owner") as [o |] eqn:Hd; try discriminate.
           apply owner_not_object with (d := d) (o := o); assumption.
      * exfalso. apply Hne. apply fetch_failure_result.
        apply status_error. exact Hs.
    + exfalso. apply Hne. apply fetch_failure_result.
      apply success_not_set with (d := d); [exact Hjson |].
      rewrite Hsf. reflexivity.
  - intros -> Hs Ho. unfold fetch_result.
    rewrite (fetch_success_result resp d Hs Hjson); auto.
    rewrite Hsf. reflexivity.
Qed.

Lemma fetch_success_flag_witness :
  let records := VList [VDict [("id", VStr "2"); ("name", VStr "Beta")];
                        VDict [("id", VStr "1"); ("name", VStr "Alpha")]] in
  let d := [("success", VBool true); ("synchronizers", records);
            ("owner", VDict [("walletAddress", VStr "0xABC")])] in
  fetch_result (Ok (mkResponse 200 EmptyString (Ok (VDict d))))
  = Ok (records, VStr "0xABC").
Proof.
  intros records d.
  apply (proj2 (proj2 (fetch_success_flag (mkResponse 200 EmptyString (Ok (VDict d)))
                         d true eq_refl eq_refl)));
    reflexivity.
Defined.

(** C9 (amended): a diagnostic [[fetch] kind: message] is written to the
    error stream for each failure that is an exception: a transport
    error, a status outside 200..299, a body that is not JSON, a JSON
    body that is not an object.  A body whose [success] is absent or
    falsy writes nothing. *)
Theorem fetch_logging :
  (forall e, exn_is_Exception e = true ->
     fetch_log (Raise e) = ["[fetch] " ++ exn_name e ++ ": " ++ exn_msg e]) /\
  (forall resp, is_success (status_code resp) = false ->
     fetch_log (Ok resp)
     = ["[fetch] HTTPStatusError: " ++ status_error_msg resp]) /\
  (forall resp e, is_success (status_code resp) = true ->
     json resp = Raise e -> exn_is_Exception e = true ->
     fetch_log (Ok resp) = ["[fetch] " ++ exn_name e ++ ": " ++ exn_msg e]) /\
  (forall resp v, is_success (status_code resp) = true ->
     json resp = Ok v -> is_dict v = false ->
     fetch_log (Ok resp)
     = ["[fetch] AttributeError: '" ++ type_name v
        ++ "' object has no attribute 'get'"]) /\
  (forall resp d, is_success (status_code resp) = true ->
     json resp = Ok (VDict d) -> truthy (success_field d) = false ->
     fetch_log (Ok resp) = []).
Proof.
  unfold fetch_log, fetch_synchronizers, fetch_try, raise_for_status.
  repeat split.
  - intros e He. simpl. rewrite He. reflexivity.
  - intros resp Hs. simpl. rewrite Hs. reflexivity.
  - intros resp e Hs Hj He. simpl. rewrite Hs. simpl. rewrite Hj. simpl.
    rewrite He. reflexivity.
  - intros resp v Hs Hj Hv. simpl. rewrite Hs. simpl. rewrite Hj. simpl.
    rewrite (get_not_dict v _ _ Hv). reflexivity.
  - intros resp d Hs Hj Ht. simpl. rewrite Hs. simpl. rewrite Hj. simpl.
    fold (success_field d). rewrite Ht. reflexivity.
Qed.

Lemma fetch_logging_witness :
  fetch_log (Ok (mkResponse 503 "Server error '503 Service Unavailable'"
                            (Ok VNone)))
  = ["[fetch] HTTPStatusError: Server error '503 Service Unavailable'"].
Proof.
  apply (proj1 (proj2 fetch_logging)). reflexivity.
Defined.

(** C9 as stated fails: the response [{"success": false}] degrades to
    the empty result and nothing is written to the error stream. *)
Lemma fetch_failure_flag_not_logged :
  let got := Ok (mkResponse 200 EmptyString (Ok (VDict [("success", VBool false)]))) in
  fetch_result got = Ok (VList [], VNone) /\ fetch_log got = [].
Proof. split; reflexivity. Qed.
(** * Properties of [sorted] *)

Lemma string_ltb_leb_trans (a b c : string) :
  String.ltb a b = true -> String.leb b c = true -> String.ltb a c = true.
Proof.
  rewrite !string_ltb_lt, string_leb_lt_or_eq. intros H [H' | <-]; auto.
  eapply String_as_OT.lt_trans; eassumption.
Qed.

Section Sorting.

Variable lt_other : value -> value -> result bool.

Lemma py_lt_str (a b : value) :
  is_str a = true -> is_str b = true ->
  py_lt lt_other a b = Ok (String.ltb (str_of a) (str_of b)).
Proof.
  destruct a; try discriminate. destruct b; try discriminate. reflexivity.
Qed.

Lemma filter_above_empty (x : value * value) (l : list (value * value)) :
  Forall (key_lt x) l -> filter (has_key (str_of (fst x))) l = [].
Proof.
  induction 1 as [| y l Hy _ IH]; simpl; [reflexivity |].
  unfold has_key at 1. rewrite (string_ltb_neq _ _ Hy). exact IH.
Qed.

Lemma insert_keyed_spec (x : value * value) (acc : list (value * value)) :
  str_keyed x -> Forall str_keyed acc -> StronglySorted key_le acc ->
  exists r,
    insert_keyed lt_other x acc = Ok r /\
    Permutation (x :: acc) r /\
    StronglySorted key_le r /\
    Forall str_keyed r /\
    forall k, filter (has_key k) r
              = (filter (has_key k) acc ++ filter (has_key k) [x])%list.
Proof.
  intros Hx. induction acc as [| y rest IH]; intros Hacc Hs.
  - exists [x]. simpl. repeat split; auto.
    constructor; [constructor | constructor].
  - inversion Hacc as [| ? ? Hy Hrest]; subst.
    apply StronglySorted_inv in Hs. destruct Hs as [Hs Hle].
    simpl. rewrite (py_lt_str _ _ Hx Hy). simpl.
    destruct (String.ltb (str_of (fst x)) (str_of (fst y))) eqn:E.
    + assert (Habove : Forall (key_lt x) (y :: rest)).
      { constructor; [exact E |].
        rewrite Forall_forall in Hle |- *. intros z Hz.
        exact (string_ltb_leb_trans _ _ _ E (Hle z Hz)). }
      exists (x :: y :: rest). repeat split; auto.
      * constructor.
        -- constructor; assumption.
        -- rewrite Forall_forall in Habove |- *. intros z Hz.
           apply string_ltb_leb. exact (Habove z Hz).
      * intros k. pose proof (filter_above_empty x (y :: rest) Habove) as He.
        simpl in He |- *.
        destruct (has_key k x) eqn:Hk.
        -- unfold has_key in Hk. apply String.eqb_eq in Hk. subst k.
           rewrite He. reflexivity.
        -- rewrite app_nil_r. reflexivity.
    + destruct (IH Hrest Hs) as [r [Hr [Hp [Hsr [Hk Hf]]]]].
      rewrite Hr. simpl. exists (y :: r). repeat split.
      * rewrite perm_swap. constructor. exact Hp.
      * constructor; [exact Hsr |].
        rewrite Forall_forall in Hle |- *. intros z Hz.
        apply (Permutation_in _ (Permutation_sym Hp)) in Hz.
        destruct Hz as [<- | Hz].
        -- apply string_ltb_false_leb. exact E.
        -- exact (Hle z Hz).
      * constructor; assumption.
      * intros k. simpl. rewrite Hf.
        destruct (has_key k y); reflexivity.
Qed.

Lemma sort_keyed_spec (l acc : list (value * value)) :
  Forall str_keyed l -> Forall str_keyed acc -> StronglySorted key_le acc ->
  exists r,
    sort_keyed lt_other acc l = Ok r /\
    Permutation (acc ++ l) r /\
    StronglySorted key_le r /\
    forall k, filter (has_key k) r
              = (filter (has_key k) acc ++ filter (has_key k) l)%list.
Proof.
  revert acc. induction l as [| x rest IH]; intros acc Hl Hacc Hs.
  - exists acc. simpl. rewrite !app_nil_r. repeat split; auto.
    intros k. rewrite app_nil_r. reflexivity.
  - inversion Hl as [| ? ? Hx Hrest]; subst.
    destruct (insert_keyed_spec x acc Hx Hacc Hs)
      as [acc' [Hi [Hp [Hs' [Hk Hf]]]]].
    destruct (IH acc' Hrest Hk Hs') as [r [Hr [Hp' [Hsr Hf']]]].
    exists r. simpl. rewrite Hi. simpl. repeat split; auto.
    + rewrite <- Hp'. rewrite <- Hp.
      symmetry. apply Permutation_middle.
    + intros k. rewrite Hf', Hf. simpl.
      rewrite <- app_assoc. destruct (has_key k x); reflexivity.
Qed.

Lemma keys_of_named (l : list value) :
  Forall (fun s => named_record s = true) l ->
  map_result (fun s => k <- get s "name" (VStr EmptyString) ;; Ok (k, s)) l
  = Ok (map keyed l).
Proof.
  induction 1 as [| s l Hs _ IH]; simpl; [reflexivity |].
  rewrite IH. unfold named_record in Hs. apply andb_prop in Hs.
  destruct Hs as [Hd _]. destruct s; try discriminate Hd. reflexivity.
Qed.

Lemma keyed_str_keyed (l : list value) :
  Forall (fun s => named_record s = true) l -> Forall str_keyed (map keyed l).
Proof.
  induction 1 as [| s l Hs _ IH]; simpl; constructor; [| exact IH].
  unfold named_record in Hs. apply andb_prop in Hs. exact (proj2 Hs).
Qed.

Lemma sorted_items (o : list (value * value)) :
  Forall (fun p => p = keyed (snd p)) o ->
  StronglySorted key_le o -> StronglySorted name_le (map snd o).
Proof.
  intros Hc Hs. induction Hs as [| p o Hs IH Hle]; simpl; [constructor |].
  inversion Hc as [| ? ? Hp Ho]; subst.
  constructor; [exact (IH Ho) |].
  rewrite Forall_forall in Hle, Ho |- *. intros s Hs'.
  apply in_map_iff in Hs'. destruct Hs' as [q [<- Hq]].
  specialize (Hle q Hq). specialize (Ho q Hq).
  unfold key_le in Hle. rewrite Hp, Ho in Hle. exact Hle.
Qed.

Lemma filter_items (k : string) (o : list (value * value)) :
  Forall (fun p => p = keyed (snd p)) o ->
  filter (has_name k) (map snd o) = map snd (filter (has_key k) o).
Proof.
  induction 1 as [| p o Hp _ IH]; simpl; [reflexivity |].
  assert (E : has_name k (snd p) = has_key k p)
    by (rewrite Hp at 2; reflexivity).
  rewrite E. destruct (has_key k p); simpl; rewrite IH; reflexivity.
Qed.

Lemma filter_keyed (k : string) (l : list value) :
  map snd (filter (has_key k) (map keyed l)) = filter (has_name k) l.
Proof.
  induction l as [| s l IH]; simpl; [reflexivity |].
  change (has_key k (keyed s)) with (has_name k s).
  destruct (has_name k s); simpl; rewrite IH; reflexivity.
Qed.

Lemma sorted_named (l : list value) :
  Forall (fun s => named_record s = true) l ->
  exists r,
    sorted lt_other (VList l) (fun s => get s "name" (VStr EmptyString)) = Ok r /\
    Permutation l r /\
    StronglySorted name_le r /\
    forall k, filter (has_name k) r = filter (has_name k) l.
Proof.
  intros Hl. unfold sorted. simpl. rewrite (keys_of_named l Hl). simpl.
  destruct (sort_keyed_spec (map keyed l) [] (keyed_str_keyed l Hl)
              (Forall_nil _) (SSorted_nil _)) as [o [Ho [Hp [Hs Hf]]]].
  rewrite Ho. simpl. simpl in Hp.
  assert (Hc : Forall (fun p => p = keyed (snd p)) o).
  { rewrite Forall_forall. intros p Hin.
    apply (Permutation_in _ (Permutation_sym Hp)) in Hin.
    apply in_map_iff in Hin. destruct Hin as [s [<- _]]. reflexivity. }
  exists (map snd o). repeat split.
  - apply (Permutation_map snd) in Hp. rewrite map_map in Hp. simpl in Hp.
    rewrite map_id in Hp. exact Hp.
  - exact (sorted_items o Hc Hs).
  - intros k. rewrite (filter_items k o Hc), Hf. simpl.
    apply filter_keyed.
Qed.

(** Whatever the comparisons answer, [sorted] hands back the items it
    was given, in some order. *)
Lemma insert_keyed_perm (x : value * value) (acc r : list (value * value)) :
  insert_keyed lt_other x acc = Ok r -> Permutation (x :: acc) r.
Proof.
  revert r. induction acc as [| y rest IH]; intros r; simpl.
  - intros H. injection H as <-. apply Permutation_refl.
  - destruct (py_lt lt_other (fst x) (fst y)) as [[|] | e]; simpl;
      try discriminate.
    + intros H. injection H as <-. apply Permutation_refl.
    + destruct (insert_keyed lt_other x rest) as [r' | e]; simpl;
        try discriminate.
      intros H. injection H as <-.
      rewrite perm_swap. constructor. apply IH. reflexivity.
Qed.

Lemma sort_keyed_perm (l acc r : list (value * value)) :
  sort_keyed lt_other acc l = Ok r -> Permutation (acc ++ l) r.
Proof.
  revert acc r. induction l as [| x rest IH]; intros acc r; simpl.
  - intros H. injection H as <-. rewrite app_nil_r. apply Permutation_refl.
  - destruct (insert_keyed lt_other x acc) as [acc' |] eqn:Hi; simpl;
      try discriminate.
    intros H. apply IH in H. rewrite <- H.
    rewrite <- (insert_keyed_perm x acc acc' Hi).
    symmetry. apply Permutation_middle.
Qed.

Lemma keys_keep_items (key : value -> result value) (l : list value)
    (ks : list (value * value)) :
  map_result (fun s => k <- key s ;; Ok (k, s)) l = Ok ks -> map snd ks = l.
Proof.
  revert ks. induction l as [| s rest IH]; intros ks; simpl.
  - intros H. injection H as <-. reflexivity.
  - destruct (key s) as [k | e]; simpl; try discriminate.
    destruct (map_result _ rest) as [ks' | e]; simpl; try discriminate.
    intros H. injection H as <-. simpl. rewrite (IH ks' eq_refl).
    reflexivity.
Qed.

Lemma sorted_perm (key : value -> result value) (l r : list value) :
  sorted lt_other (VList l) key = Ok r -> Permutation l r.
Proof.
  unfold sorted. simpl.
  destruct (map_result _ l) as [ks |] eqn:Hk; simpl; try discriminate.
  destruct (sort_keyed lt_other [] ks) as [o |] eqn:Ho; simpl;
    try discriminate.
  intros H. injection H as <-.
  apply sort_keyed_perm in Ho. simpl in Ho.
  rewrite <- (keys_keep_items key l ks Hk).
  apply Permutation_map. exact Ho.
Qed.

End Sorting.

(** * Properties of the layout *)

Lemma list_ind3 {A : Type} (P : list A -> Prop) :
  P [] -> (forall a, P [a]) -> (forall a b, P [a; b]) ->
  (forall a b c l, P l -> P (a :: b :: c :: l)) ->
  forall l, P l.
Proof.
  intros H0 H1 H2 H3.
  refine (fix go (l : list A) : P l :=
            match l with
            | [] => H0
            | [a] => H1 a
            | [a; b] => H2 a b
            | a :: b :: c :: rest => H3 a b c rest (go rest)
            end).
Qed.

Lemma mount_in_last_row (children : list row) (r : row)
    (w : SynchronizerWidget) :
  mount_in_row (children ++ [r]) (List.length children) w
  = (children ++ [r ++ [w]])%list.
Proof.
  induction children as [| c children IH]; simpl; [reflexivity |].
  rewrite IH. reflexivity.
Qed.

Lemma idx_mod3_0 (q : nat) : ((3 * q) mod 3 =? 0)%nat = true.
Proof. rewrite Nat.mul_comm, Nat.Div0.mod_mul. reflexivity. Qed.

Lemma idx_mod3_1 (q : nat) : (S (3 * q) mod 3 =? 0)%nat = false.
Proof.
  replace (S (3 * q)) with (1 + q * 3)%nat by lia.
  rewrite Nat.Div0.mod_add. reflexivity.
Qed.

Lemma idx_mod3_2 (q : nat) : (S (S (3 * q)) mod 3 =? 0)%nat = false.
Proof.
  replace (S (S (3 * q))) with (2 + q * 3)%nat by lia.
  rewrite Nat.Div0.mod_add. reflexivity.
Qed.

Lemma populate_loop_rows (syncs : list value) :
  forall (children : list row) (current : option nat) (q : nat),
    populate_loop children current (3 * q) syncs
    = (children ++ rows_of (map mkSynchronizerWidget syncs))%list.
Proof.
  induction syncs as [| a | a b | a b c rest IH] using list_ind3;
    intros children current q; cbn [populate_loop].
  - rewrite app_nil_r. reflexivity.
  - rewrite idx_mod3_0, mount_in_last_row. reflexivity.
  - rewrite idx_mod3_0, idx_mod3_1, !mount_in_last_row. reflexivity.
  - rewrite idx_mod3_0, idx_mod3_1, idx_mod3_2, !mount_in_last_row.
    replace (S (S (S (3 * q)))) with (3 * S q)%nat by lia.
    rewrite IH. cbn [map rows_of app]. rewrite <- app_assoc. reflexivity.
Qed.

Lemma rows_of_concat {A : Type} (l : list A) : List.concat (rows_of l) = l.
Proof.
  induction l as [| a | a b | a b c rest IH] using list_ind3;
    try reflexivity.
  cbn [rows_of List.concat app]. rewrite IH. reflexivity.
Qed.

Lemma rows_of_width {A : Type} (l : list A) :
  Forall (fun r => (1 <= List.length r <= 3)%nat) (rows_of l).
Proof.
  induction l as [| a | a b | a b c rest IH] using list_ind3;
    cbn [rows_of]; repeat constructor; simpl; try lia; exact IH.
Qed.

Lemma rows_of_length {A : Type} (l : list A) :
  List.length (rows_of l) = ceil_div (List.length l) 3.
Proof.
  unfold ceil_div.
  induction l as [| a | a b | a b c rest IH] using list_ind3;
    try reflexivity.
  cbn [rows_of List.length]. rewrite IH.
  replace (S (S (S (List.length rest))) + 3 - 1)%nat
    with ((List.length rest + 3 - 1) + 1 * 3)%nat by lia.
  rewrite Nat.div_add by discriminate. lia.
Qed.

Lemma ceil_div_3_least (n : nat) :
  (n <= 3 * ceil_div n 3 < n + 3)%nat.
Proof.
  unfold ceil_div.
  pose proof (Nat.div_mod_eq (n + 3 - 1) 3) as E.
  pose proof (Nat.mod_upper_bound (n + 3 - 1) 3 ltac:(discriminate)) as B.
  lia.
Qed.

Lemma clear_children (snapshot children : list row) :
  (List.length children <= List.length snapshot)%nat ->
  fold_left (fun c (_ : row) => tl c) snapshot children = [].
Proof.
  revert children.
  induction snapshot as [| s snapshot IH]; intros children H; simpl.
  - destruct children; [reflexivity | simpl in H; lia].
  - apply IH. destruct children; simpl in *; lia.
Qed.

Lemma body_clear_body (st : Dashboard) : body (_clear_body st) = [].
Proof. simpl. apply clear_children. lia. Qed.

Lemma body_populate_cleared (st : Dashboard) (syncs : list value) :
  body (_populate_sync_rows (_clear_body st) syncs)
  = rows_of (map mkSynchronizerWidget syncs).
Proof.
  unfold _populate_sync_rows. cbn [body].
  rewrite (populate_loop_rows syncs _ None 0).
  fold (body (_clear_body st)). rewrite body_clear_body. reflexivity.
Qed.

(** * Properties of the cards *)

(** C5: the card of a record shows the four fields [id], [key], [name]
    and [isEnabled], each as a label and a value; a field the record does
    not have shows as the placeholder, and rendering does not fail. *)
Theorem render_card (str_other : value -> string) (d : list (string * value)) :
  render str_other (mkSynchronizerWidget (VDict d))
  = Ok [("[bold]id[/]", field_text str_other d "id");
        ("[bold]key[/]", field_text str_other d "key");
        ("[bold]name[/]", field_text str_other d "name");
        ("[bold]isEnabled[/]", field_text str_other d "isEnabled")] /\
  (forall field, dict_get d field = None ->
     field_text str_other d field = "—") /\
  (forall field v, dict_get d field = Some v ->
     field_text str_other d field = py_str str_other v).
Proof.
  split; [| split].
  - unfold render, field_text. simpl.
    destruct (dict_get d "id"), (dict_get d "key"), (dict_get d "name"),
      (dict_get d "isEnabled"); reflexivity.
  - intros field H. unfold field_text. rewrite H. reflexivity.
  - intros field v H. unfold field_text. rewrite H. reflexivity.
Qed.

Lemma render_card_witness :
  render str_unused
         (mkSynchronizerWidget (VDict [("id", VInt 7); ("isEnabled", VBool true)]))
  = Ok [("[bold]id[/]", "7"); ("[bold]key[/]", "—");
        ("[bold]name[/]", "—"); ("[bold]isEnabled[/]", "True")].
Proof.
  exact (proj1 (render_card str_unused
                  [("id", VInt 7); ("isEnabled", VBool true)])).
Defined.

(** * Properties of the refresh cycle *)

Section Refresh.

Variable lt_other : value -> value -> result bool.
Variable float_add : Q -> Q -> Q.

Lemma header_update (st : Dashboard) (wallet : value) :
  header (_update_header_wallet st wallet)
  = match header st with
    | TextualHeader (Some _) => TextualHeader (Some (py_or wallet (VStr EmptyString)))
    | h => h
    end.
Proof.
  destruct st as [[[old |] | text] children remaining deadline err];
    reflexivity.
Qed.

(** The state a refresh cycle leaves when the fetch returns [syncs] and
    [wallet] and the sort returns [ordered]. *)
Lemma refresh_widgets_completes (st : Dashboard) (got : result response)
    (now : Q) (syncs wallet : value) (ordered : list value) :
  fetch_result got = Ok (syncs, wallet) ->
  sorted lt_other syncs (fun s => get s "name" (VStr EmptyString)) = Ok ordered ->
  refresh_widgets lt_other float_add st got now
  = Ok (mkDashboard (header (_update_header_wallet st wallet))
                    (rows_of (map mkSynchronizerWidget ordered))
                    REFRESH_EVERY
                    (float_add now (inject_Z REFRESH_EVERY))
                    (stderr st ++ fetch_log got)%list).
Proof.
  unfold fetch_result, fetch_log, refresh_widgets.
  destruct (fetch_synchronizers got) as [printed fetched]. simpl.
  intros -> Hs. simpl. rewrite Hs. simpl.
  unfold _set_footer_countdown. cbn [header body stderr footer_remaining].
  f_equal. f_equal.
  - rewrite !header_update. reflexivity.
  - set (st1 := _update_header_wallet _ wallet).
    exact (body_populate_cleared st1 ordered).
  - destruct st as [[[old |] | text] children remaining deadline err];
      reflexivity.
Qed.

Lemma refresh_widgets_resets (st st' : Dashboard) (got : result response)
    (now : Q) :
  refresh_widgets lt_other float_add st got now = Ok st' ->
  footer_remaining st' = REFRESH_EVERY /\
  next_refresh_epoch st' = (float_add now (inject_Z REFRESH_EVERY)).
Proof.
  unfold refresh_widgets.
  destruct (fetch_synchronizers got) as [printed [[syncs wallet] | e]];
    simpl; [| discriminate].
  destruct (sorted lt_other syncs _) as [ordered | e]; simpl;
    [| discriminate].
  intros H. injection H as <-. split; reflexivity.
Qed.

Lemma sorted_empty :
  sorted lt_other (VList []) (fun s => get s "name" (VStr EmptyString)) = Ok [].
Proof. reflexivity. Qed.

Lemma refresh_widgets_after_failure (st : Dashboard) (got : result response)
    (now : Q) :
  fetch_failure got ->
  refresh_widgets lt_other float_add st got now
  = Ok (mkDashboard (header (_update_header_wallet st VNone)) []
                    REFRESH_EVERY (float_add now (inject_Z REFRESH_EVERY))
                    (stderr st ++ fetch_log got)%list).
Proof.
  intros H.
  exact (refresh_widgets_completes st got now (VList []) VNone []
           (fetch_failure_result got H) sorted_empty).
Qed.

Lemma name_key_missing (d : list (string * value)) :
  dict_get d "name" = None -> name_key (VDict d) = EmptyString.
Proof. intros H. unfold name_key, name_of. rewrite H. reflexivity. Qed.

Lemma string_leb_empty (s : string) : String.leb EmptyString s = true.
Proof. destruct s; reflexivity. Qed.

(** C4: the cards mounted for a list of N records are one per record, in
    the order given, in rows of one to three cards, and the number of
    rows is N divided by three, rounded up; a refresh cycle that
    completes on N fetched records shows as many cards in as many rows. *)
Theorem cards_in_rows_of_three (st : Dashboard) (syncs : list value) :
  (let st' := _populate_sync_rows (_clear_body st) syncs in
   displayed st' = syncs /\
   List.length (List.concat (body st')) = List.length syncs /\
   Forall (fun r => (1 <= List.length r <= 3)%nat) (body st') /\
   List.length (body st') = ceil_div (List.length syncs) 3 /\
   (List.length syncs <= 3 * List.length (body st')
    < List.length syncs + 3)%nat) /\
  (forall got now wallet st',
     fetch_result got = Ok (VList syncs, wallet) ->
     refresh_widgets lt_other float_add st got now = Ok st' ->
     List.length (displayed st') = List.length syncs /\
     Forall (fun r => (1 <= List.length r <= 3)%nat) (body st') /\
     List.length (body st') = ceil_div (List.length syncs) 3).
Proof.
  split.
  - intros st'. unfold displayed.
    assert (E : body st' = rows_of (map mkSynchronizerWidget syncs))
      by apply body_populate_cleared.
    rewrite E, rows_of_concat. unfold row.
    rewrite rows_of_length, length_map, map_map.
    simpl. rewrite map_id.
    repeat split; try apply rows_of_width; apply ceil_div_3_least.
  - intros got now wallet st' Hfetch Hrefresh.
    destruct (sorted lt_other (VList syncs)
                (fun s => get s "name" (VStr EmptyString)))
      as [ordered | e] eqn:Hsort.
    + rewrite (refresh_widgets_completes st got now _ _ ordered Hfetch Hsort)
        in Hrefresh.
      injection Hrefresh as <-. unfold displayed. cbn [body].
      rewrite rows_of_concat. unfold row.
      rewrite rows_of_length, !length_map.
      rewrite <- (Permutation_length (sorted_perm lt_other _ _ _ Hsort)).
      repeat split. apply rows_of_width.
    + exfalso. revert Hrefresh. unfold refresh_widgets, fetch_result in *.
      destruct (fetch_synchronizers got) as [printed fetched].
      simpl in Hfetch. subst fetched. simpl. rewrite Hsort. discriminate.
Qed.

(** C3 (amended): for every list of records whose [name] is absent or a
    string, the refresh cycle displays the records ordered by [name]
    ascending, a record without [name] counting as the empty string and
    so coming first, and records of equal name keep their order. *)
Theorem refresh_displays_sorted (st : Dashboard) (got : result response)
    (now : Q) (l : list value) (wallet : value)
    (Hfetch : fetch_result got = Ok (VList l, wallet))
    (Hnames : Forall (fun s => named_record s = true) l) :
  exists st',
    refresh_widgets lt_other float_add st got now = Ok st' /\
    Permutation l (displayed st') /\
    StronglySorted name_le (displayed st') /\
    (forall k, filter (has_name k) (displayed st') = filter (has_name k) l) /\
    (forall d s, dict_get d "name" = None ->
       name_key (VDict d) = EmptyString /\ name_le (VDict d) s).
Proof.
  destruct (sorted_named lt_other l Hnames) as [r [Hr [Hp [Hs Hf]]]].
  eexists. split.
  - exact (refresh_widgets_completes st got now (VList l) wallet r Hfetch Hr).
  - unfold displayed. cbn [body]. rewrite rows_of_concat, map_map. simpl.
    rewrite map_id. repeat split; auto.
    + apply name_key_missing. assumption.
    + unfold name_le. rewrite name_key_missing by assumption.
      apply string_leb_empty.
Qed.

(** C7: after a refresh cycle whose fetch failed (a timeout or another
    transport error, a status outside 200..299, a body that is not JSON
    or not an object, [success] false), no card is displayed and the
    subtitle of the header, when it has one, is the empty string. *)
Theorem refresh_after_failed_fetch (st : Dashboard) (got : result response)
    (now : Q) (H : fetch_failure got) :
  exists st',
    refresh_widgets lt_other float_add st got now = Ok st' /\
    body st' = [] /\
    displayed st' = [] /\
    (forall old, header st = TextualHeader (Some old) ->
       header st' = TextualHeader (Some (VStr EmptyString))) /\
    (forall v, sub_title_of (header st') = Some v -> v = VStr EmptyString).
Proof.
  eexists. split; [exact (refresh_widgets_after_failure st got now H) |].
  cbn [body header]. rewrite header_update.
  repeat split.
  - intros old ->. reflexivity.
  - intros v. destruct (header st) as [[old |] | text]; simpl;
      intros E; try discriminate. injection E as <-. reflexivity.
Qed.

(** C8 (amended): when the fetch of a refresh cycle fails, the cycle
    completes and leaves the body empty whatever was displayed before, so
    the previous screen stays only if it was empty; the diagnostic of the
    fetch goes to the error stream and nothing else records the failure. *)
Theorem failed_fetch_empties_display (st : Dashboard) (got : result response)
    (now : Q) (H : fetch_failure got) :
  exists st',
    refresh_widgets lt_other float_add st got now = Ok st' /\
    body st' = [] /\
    (body st' = body st <-> body st = []) /\
    stderr st' = (stderr st ++ fetch_log got)%list.
Proof.
  eexists. split; [exact (refresh_widgets_after_failure st got now H) |].
  cbn [body stderr]. repeat split; intros E; congruence.
Qed.

End Refresh.

Lemma cards_in_rows_of_three_witness :
  let item := fun n => VDict [("id", VInt n); ("name", VStr "node")] in
  let l := [item 4; item 3; item 2; item 1] in
  let got := Ok (mkResponse 200 EmptyString
                   (Ok (VDict [("success", VBool true);
                               ("synchronizers", VList l)]))) in
  let st := compose_layout sum_exact None 1000 in
  exists st',
    refresh_widgets lt_unused sum_exact st got 1001 = Ok st' /\
    displayed st' = l /\
    List.length (body st') = 2%nat /\
    Forall (fun r => (1 <= List.length r <= 3)%nat) (body st').
Proof.
  intros item l got st. eexists.
  split; [reflexivity |]. split; [reflexivity |]. split; [reflexivity |].
  eapply (proj2 (cards_in_rows_of_three lt_unused sum_exact st l) got 1001%Q VNone).
  - reflexivity.
  - reflexivity.
Defined.

Lemma refresh_displays_sorted_witness :
  let beta := VDict [("id", VStr "2"); ("name", VStr "Beta")] in
  let alpha := VDict [("id", VStr "1"); ("name", VStr "Alpha")] in
  let got := Ok (mkResponse 200 EmptyString
                   (Ok (VDict [("success", VBool true);
                               ("synchronizers", VList [beta; alpha]);
                               ("owner", VDict [("walletAddress", VStr "0xABC")])]))) in
  let st := mkDashboard (TextualHeader (Some (VStr EmptyString))) [] 60 1060 [] in
  exists st',
    refresh_widgets lt_unused sum_exact st got 1001 = Ok st' /\
    Permutation [beta; alpha] (displayed st') /\
    StronglySorted name_le (displayed st') /\
    (forall k, filter (has_name k) (displayed st')
               = filter (has_name k) [beta; alpha]) /\
    (forall d s, dict_get d "name" = None ->
       name_key (VDict d) = EmptyString /\ name_le (VDict d) s).
Proof.
  intros beta alpha got st.
  apply (refresh_displays_sorted lt_unused sum_exact st got 1001 [beta; alpha]
           (VStr "0xABC")).
  - reflexivity.
  - repeat constructor.
Defined.

(** C3 as stated fails: with two records, one of them with a [null]
    name, the comparison of the keys raises and the cycle displays
    nothing. *)
Lemma refresh_null_name_raises :
  let records := VList [VDict [("id", VStr "1"); ("name", VNone)];
                        VDict [("id", VStr "2"); ("name", VStr "a")]] in
  let got := Ok (mkResponse 200 EmptyString
                   (Ok (VDict [("success", VBool true);
                               ("synchronizers", records)]))) in
  let st := mkDashboard (TextualHeader (Some (VStr EmptyString))) [] 60 1060 [] in
  fetch_result got = Ok (records, VNone) /\
  refresh_widgets lt_unused sum_exact st got 1001
  = Raise (TypeError
             "'<' not supported between instances of 'str' and 'NoneType'").
Proof. split; reflexivity. Qed.

Lemma refresh_after_failed_fetch_witness :
  let card := mkSynchronizerWidget (VDict [("id", VStr "1")]) in
  let st := mkDashboard (TextualHeader (Some (VStr "0xABC"))) [[card]] 0 1060 [] in
  let got := Ok (mkResponse 200 EmptyString (Ok (VDict [("success", VBool false)]))) in
  exists st',
    refresh_widgets lt_unused sum_exact st got 1061 = Ok st' /\
    body st' = [] /\
    displayed st' = [] /\
    (forall old, header st = TextualHeader (Some old) ->
       header st' = TextualHeader (Some (VStr EmptyString))) /\
    (forall v, sub_title_of (header st') = Some v -> v = VStr EmptyString).
Proof.
  intros card st got.
  apply (refresh_after_failed_fetch lt_unused sum_exact st got 1061).
  apply success_not_set with (d := [("success", VBool false)]); reflexivity.
Defined.

Lemma failed_fetch_empties_display_witness :
  let card := mkSynchronizerWidget (VDict [("id", VStr "1")]) in
  let st := mkDashboard (StaticHeader APP_TITLE) [[card]] 0 1060 [] in
  let got := Ok (mkResponse 500 "Server error '500 Internal Server Error'"
                            (Ok VNone)) in
  exists st',
    refresh_widgets lt_unused sum_exact st got 1061 = Ok st' /\
    body st' = [] /\
    (body st' = body st <-> body st = []) /\
    stderr st' = (stderr st ++ fetch_log got)%list.
Proof.
  intros card st got.
  apply (failed_fetch_empties_display lt_unused sum_exact st got 1061).
  apply status_error. reflexivity.
Defined.

(** C8 as stated fails: a screen showing one card does not stay after a
    request that timed out; the cycle leaves the body empty and clears
    the subtitle. *)
Lemma failed_fetch_drops_previous_screen :
  let card := mkSynchronizerWidget (VDict [("id", VStr "1"); ("name", VStr "Alpha")]) in
  let st := mkDashboard (TextualHeader (Some (VStr "0xABC"))) [[card]] 0 1060 [] in
  let got := Raise (mkExn "ReadTimeout" "timed out" true) in
  refresh_widgets lt_unused sum_exact st got 1061
  = Ok (mkDashboard (TextualHeader (Some (VStr EmptyString))) [] 60 1121
                    ["[fetch] ReadTimeout: timed out"]) /\
  body st <> [].
Proof. split; [reflexivity | discriminate]. Qed.

(** * Properties of the countdown *)











Section Countdown.

Variable lt_other : value -> value -> result bool.
Variable float_add : Q -> Q -> Q.





End Countdown.





(** * Further properties of [fetch_synchronizers] *)

(** X1: an exception leaves [fetch_synchronizers] only when it does not
    derive from [Exception] and was raised by [client.get] or by
    [resp.json()] on a response with a status in 200..299; nothing is
    printed then. *)
Theorem fetch_escaping_exception (got : result response) (e : exn)
    (H : fetch_result got = Raise e) :
  exn_is_Exception e = false /\
  fetch_log got = [] /\
  (got = Raise e \/
   exists resp, got = Ok resp /\
                is_success (status_code resp) = true /\
                json resp = Raise e).
Proof.
  revert H. unfold fetch_result, fetch_log, fetch_synchronizers.
  destruct (fetch_try got) as [[r |] | x] eqn:Htry; simpl; try discriminate.
  destruct (exn_is_Exception x) eqn:Hx; simpl; try discriminate.
  intros H. injection H as <-. split; [exact Hx |]. split; [reflexivity |].
  revert Htry. unfold fetch_try, raise_for_status.
  destruct got as [resp | e0]; simpl.
  - destruct (is_success (status_code resp)) eqn:Hs; simpl.
    + destruct (json resp) as [v | e1] eqn:Hj; simpl.
      * intros Htry. exfalso.
        destruct v; simpl in Htry;
          try (injection Htry as <-; discriminate Hx).
        destruct (truthy _); simpl in Htry; try discriminate Htry.
        destruct (dict_get d "owner") as [o |]; simpl in Htry;
          try discriminate Htry.
        destruct o; simpl in Htry;
          try discriminate Htry; injection Htry as <-; discriminate Hx.
      * intros Htry. injection Htry as <-. right. exists resp. auto.
    + intros Htry. injection Htry as <-. discriminate Hx.
  - intros Htry. injection Htry as <-. left. reflexivity.
Qed.

Lemma fetch_escaping_exception_witness :
  let cancelled := mkExn "CancelledError" EmptyString false in
  exn_is_Exception cancelled = false /\
  fetch_log (Raise cancelled : result response) = [].
Proof.
  intros cancelled.
  pose proof (fetch_escaping_exception (Raise cancelled) cancelled eq_refl)
    as [Hclass [Hlog _]].
  split; [exact Hclass | exact Hlog].
Defined.

Lemma fetch_log_short (got : result response) :
  (List.length (fetch_log got) <= 1)%nat.
Proof.
  unfold fetch_log, fetch_synchronizers.
  destruct (fetch_try got) as [[r |] | x]; simpl; try lia.
  destruct (exn_is_Exception x); simpl; lia.
Qed.

(** X2: a call of [fetch_synchronizers] calls [print] at most once; when
    it does, what it prints is the diagnostic of an exception the [try]
    block raised and the call returns the empty list and [None]. *)
Theorem fetch_prints_only_on_failure (got : result response) :
  (List.length (fetch_log got) <= 1)%nat /\
  (fetch_log got <> [] ->
   fetch_result got = Ok (VList [], VNone) /\
   exists e, fetch_try got = Raise e /\ exn_is_Exception e = true /\
             fetch_log got = [fetch_diagnostic e]).
Proof.
  unfold fetch_result, fetch_log, fetch_synchronizers.
  destruct (fetch_try got) as [[r |] | x]; simpl.
  - split; [lia | intros H; now elim H].
  - split; [lia | intros H; now elim H].
  - destruct (exn_is_Exception x) eqn:Hx; simpl.
    + split; [lia |]. intros _. split; [reflexivity |].
      exists x. auto.
    + split; [lia | intros H; now elim H].
Qed.

Lemma fetch_prints_only_on_failure_witness :
  let got := Ok (mkResponse 404 "Client error '404 Not Found'" (Ok VNone)) in
  fetch_result got = Ok (VList [], VNone) /\
  exists e, fetch_try got = Raise e /\ exn_is_Exception e = true /\
            fetch_log got = [fetch_diagnostic e].
Proof.
  intros got. apply (proj2 (fetch_prints_only_on_failure got)). discriminate.
Defined.

(** X3: on a response with a status in 200..299 whose body is an object,
    the call prints nothing unless [owner] is unreadable, and its result
    is decided by the truth value of [success] alone, boolean or not:
    truthy with a readable [owner] gives the fields [synchronizers] and
    [owner.walletAddress] as they are, anything else the empty result. *)
Theorem fetch_object_body (resp : response) (d : list (string * value))
    (Hstatus : is_success (status_code resp) = true)
    (Hjson : json resp = Ok (VDict d)) :
  fetch_result (Ok resp)
  = (if truthy (success_field d) && owner_readable d
     then Ok (synchronizers_field d, wallet_field d)
     else Ok (VList [], VNone)) /\
  (fetch_log (Ok resp) <> [] ->
   truthy (success_field d) = true /\ owner_readable d = false).
Proof.
  unfold fetch_result, fetch_log, fetch_synchronizers, fetch_try,
    raise_for_status.
  simpl. rewrite Hstatus. simpl. rewrite Hjson. simpl.
  fold (success_field d). unfold owner_readable, wallet_field.
  destruct (truthy (success_field d)); simpl.
  - fold (synchronizers_field d).
    destruct (dict_get d "owner") as [o |]; simpl.
    + destruct o; simpl; (split; [reflexivity |]);
        intros H; try (now elim H); auto.
    + split; [reflexivity | intros H; now elim H].
  - split; [reflexivity | intros H; now elim H].
Qed.

Lemma fetch_object_body_witness :
  let d := [("success", VInt 1); ("synchronizers", VStr "oops")] in
  fetch_result (Ok (mkResponse 204 EmptyString (Ok (VDict d))))
  = Ok (VStr "oops", VNone).
Proof.
  intros d.
  exact (proj1 (fetch_object_body (mkResponse 204 EmptyString (Ok (VDict d)))
                  d eq_refl eq_refl)).
Defined.

(** * Further properties of the refresh cycle *)

Section RefreshOutcome.

Variable str_other : value -> string.
Variable lt_other : value -> value -> result bool.
Variable float_add : Q -> Q -> Q.

(** What a refresh cycle does, read backwards from its outcome. *)
Lemma refresh_widgets_outcome (st : Dashboard) (got : result response)
    (now : Q) :
  match refresh_widgets lt_other float_add st got now with
  | Ok st' =>
      exists syncs wallet ordered,
        fetch_result got = Ok (syncs, wallet) /\
        sorted lt_other syncs (fun s => get s "name" (VStr EmptyString)) = Ok ordered /\
        st' = mkDashboard (header (_update_header_wallet st wallet))
                          (rows_of (map mkSynchronizerWidget ordered))
                          REFRESH_EVERY
                          (float_add now (inject_Z REFRESH_EVERY))
                          (stderr st ++ fetch_log got)%list
  | Raise e =>
      fetch_result got = Raise e \/
      exists syncs wallet,
        fetch_result got = Ok (syncs, wallet) /\
        sorted lt_other syncs (fun s => get s "name" (VStr EmptyString)) = Raise e
  end.
Proof.
  destruct (fetch_result got) as [[syncs wallet] | e] eqn:Hfetch.
  - destruct (sorted lt_other syncs (fun s => get s "name" (VStr EmptyString))) as [ordered | e] eqn:Hsort.
    + rewrite (refresh_widgets_completes lt_other float_add st got now syncs wallet
                 ordered Hfetch Hsort).
      exists syncs, wallet, ordered. auto.
    + assert (E : refresh_widgets lt_other float_add st got now = Raise e).
      { unfold refresh_widgets, fetch_result in *.
        destruct (fetch_synchronizers got) as [printed fetched].
        simpl in Hfetch. subst fetched. simpl. rewrite Hsort. reflexivity. }
      rewrite E. right. exists syncs, wallet. auto.
  - assert (E : refresh_widgets lt_other float_add st got now = Raise e).
    { unfold refresh_widgets, fetch_result in *.
      destruct (fetch_synchronizers got) as [printed fetched].
      simpl in Hfetch. subst fetched. reflexivity. }
    rewrite E. left. reflexivity.
Qed.

Lemma sorted_items_perm (iterable : value) (key : value -> result value)
    (r : list value) :
  sorted lt_other iterable key = Ok r ->
  exists items, py_iter iterable = Ok items /\ Permutation items r.
Proof.
  unfold sorted.
  destruct (py_iter iterable) as [items | e]; simpl; try discriminate.
  destruct (map_result _ items) as [ks |] eqn:Hk; simpl; try discriminate.
  destruct (sort_keyed lt_other [] ks) as [o |] eqn:Ho; simpl;
    try discriminate.
  intros H. injection H as <-. exists items. split; [reflexivity |].
  apply sort_keyed_perm in Ho. simpl in Ho.
  rewrite <- (keys_keep_items key items ks Hk).
  apply Permutation_map. exact Ho.
Qed.

Lemma keys_need_dicts (dflt : value) (items : list value)
    (ks : list (value * value)) :
  map_result (fun s => k <- get s "name" dflt ;; Ok (k, s)) items = Ok ks ->
  Forall (fun s => is_dict s = true) items.
Proof.
  revert ks. induction items as [| s rest IH]; intros ks; simpl.
  - constructor.
  - destruct (get s "name" dflt) as [k | e] eqn:Hg; simpl; try discriminate.
    destruct (map_result _ rest) as [ks' | e]; simpl; try discriminate.
    intros _. constructor; [| exact (IH ks' eq_refl)].
    destruct s; try discriminate Hg. reflexivity.
Qed.

Lemma sorted_items_dicts (iterable : value) (r : list value) :
  sorted lt_other iterable (fun s => get s "name" (VStr EmptyString)) = Ok r ->
  Forall (fun s => is_dict s = true) r.
Proof.
  intros H. destruct (sorted_items_perm _ _ _ H) as [items [Hi Hp]].
  revert H. unfold sorted. rewrite Hi. simpl.
  destruct (map_result _ items) as [ks |] eqn:Hk; simpl; try discriminate.
  intros _. apply keys_need_dicts in Hk.
  rewrite Forall_forall in Hk |- *. intros s Hs.
  apply Hk. exact (Permutation_in _ (Permutation_sym Hp) Hs).
Qed.

(** X4: a refresh cycle that completes displays the items it fetched,
    each once, whatever their names are: nothing is dropped or shown
    twice. *)
Theorem refresh_displays_every_item (st st' : Dashboard)
    (got : result response) (now : Q) (l : list value) (wallet : value)
    (Hfetch : fetch_result got = Ok (VList l, wallet))
    (Hrefresh : refresh_widgets lt_other float_add st got now = Ok st') :
  Permutation l (displayed st').
Proof.
  pose proof (refresh_widgets_outcome st got now) as H.
  rewrite Hrefresh in H.
  destruct H as [syncs [w [ordered [Hf [Hsort ->]]]]].
  rewrite Hfetch in Hf. injection Hf as <- <-.
  unfold displayed. cbn [body].
  rewrite rows_of_concat, map_map. simpl. rewrite map_id.
  exact (sorted_perm lt_other _ _ _ Hsort).
Qed.

(** X5: the outcome of a refresh cycle does not depend on what was
    displayed before: from two states, the same exchange at the same
    reading either raises the same exception or leaves the same rows,
    the same countdown and the same deadline. *)
Theorem refresh_rebuilds_from_scratch (st1 st2 : Dashboard)
    (got : result response) (now : Q) :
  match refresh_widgets lt_other float_add st1 got now,
        refresh_widgets lt_other float_add st2 got now with
  | Ok s1, Ok s2 =>
      body s1 = body s2 /\
      footer_remaining s1 = footer_remaining s2 /\
      next_refresh_epoch s1 = next_refresh_epoch s2
  | Raise e1, Raise e2 => e1 = e2
  | _, _ => False
  end.
Proof.
  pose proof (refresh_widgets_outcome st1 got now) as H1.
  pose proof (refresh_widgets_outcome st2 got now) as H2.
  destruct (refresh_widgets lt_other float_add st1 got now) as [s1 | e1];
    destruct (refresh_widgets lt_other float_add st2 got now) as [s2 | e2].
  - destruct H1 as [y1 [w1 [o1 [F1 [S1 ->]]]]].
    destruct H2 as [y2 [w2 [o2 [F2 [S2 ->]]]]].
    rewrite F1 in F2. injection F2 as <- <-.
    rewrite S1 in S2. injection S2 as <-. auto.
  - destruct H1 as [y1 [w1 [o1 [F1 [S1 _]]]]].
    destruct H2 as [F2 | [y2 [w2 [F2 S2]]]]; rewrite F1 in F2;
      try discriminate.
    injection F2 as <- <-. rewrite S1 in S2. discriminate.
  - destruct H2 as [y2 [w2 [o2 [F2 [S2 _]]]]].
    destruct H1 as [F1 | [y1 [w1 [F1 S1]]]]; rewrite F2 in F1;
      try discriminate.
    injection F1 as <- <-. rewrite S2 in S1. discriminate.
  - destruct H1 as [F1 | [y1 [w1 [F1 S1]]]];
      destruct H2 as [F2 | [y2 [w2 [F2 S2]]]]; rewrite F1 in F2;
      try discriminate.
    + injection F2 as <-. reflexivity.
    + injection F2 as <- <-. rewrite S1 in S2. injection S2 as <-.
      reflexivity.
Qed.

Lemma refresh_sort_raises (st : Dashboard) (got : result response) (now : Q)
    (syncs wallet : value) (e : exn) :
  fetch_result got = Ok (syncs, wallet) ->
  sorted lt_other syncs (fun s => get s "name" (VStr EmptyString)) = Raise e ->
  refresh_widgets lt_other float_add st got now = Raise e.
Proof.
  intros Hfetch Hsort. unfold refresh_widgets, fetch_result in *.
  destruct (fetch_synchronizers got) as [printed fetched].
  simpl in Hfetch. subst fetched. simpl. rewrite Hsort. reflexivity.
Qed.

Lemma string_leb_ltb_false (a b : string) :
  String.leb a b = true -> String.ltb b a = false.
Proof.
  unfold String.ltb, String.leb. rewrite (String.compare_antisym a b).
  destruct (String.compare b a); simpl; intros H; try reflexivity;
    discriminate.
Qed.

Lemma insert_keyed_last (x : value * value) (acc : list (value * value)) :
  str_keyed x -> Forall str_keyed acc -> Forall (fun p => key_le p x) acc ->
  insert_keyed lt_other x acc = Ok (acc ++ [x])%list.
Proof.
  intros Hx Hacc Hle. induction acc as [| y rest IH]; simpl; [reflexivity |].
  inversion Hacc as [| ? ? Hy Hrest]; subst.
  inversion Hle as [| ? ? Hyx Hrestx]; subst.
  rewrite (py_lt_str lt_other _ _ Hx Hy). simpl.
  rewrite (string_leb_ltb_false _ _ Hyx).
  rewrite (IH Hrest Hrestx). reflexivity.
Qed.

Lemma sorted_prefix_below {A : Type} (R : A -> A -> Prop) (a : list A)
    (x : A) (rest : list A) :
  StronglySorted R (a ++ x :: rest) -> Forall (fun p => R p x) a.
Proof.
  induction a as [| y a IH]; simpl; intros H; [constructor |].
  apply StronglySorted_inv in H. destruct H as [Hs Hy].
  constructor; [| exact (IH Hs)].
  rewrite Forall_forall in Hy. apply Hy. apply in_or_app. right. left.
  reflexivity.
Qed.

Lemma sort_keyed_ordered (l acc : list (value * value)) :
  Forall str_keyed (acc ++ l) -> StronglySorted key_le (acc ++ l) ->
  sort_keyed lt_other acc l = Ok (acc ++ l)%list.
Proof.
  revert acc. induction l as [| x rest IH]; intros acc Hk Hs; simpl.
  - rewrite app_nil_r. reflexivity.
  - apply Forall_app in Hk as Hk'. destruct Hk' as [Hacc Hl].
    inversion Hl as [| ? ? Hx _]; subst.
    rewrite (insert_keyed_last x acc Hx Hacc (sorted_prefix_below _ _ _ _ Hs)).
    simpl. rewrite (IH (acc ++ [x])%list); rewrite <- app_assoc; auto.
Qed.

Lemma keyed_ordered (l : list value) :
  StronglySorted name_le l -> StronglySorted key_le (map keyed l).
Proof.
  induction 1 as [| s l Hs IH Hle]; simpl; constructor; [exact IH |].
  rewrite Forall_forall in Hle |- *. intros p Hp.
  apply in_map_iff in Hp. destruct Hp as [t [<- Ht]]. exact (Hle t Ht).
Qed.

(** X6: records that arrive ordered by name are displayed in the order
    received: the sort moves nothing when there is nothing to move. *)
Theorem refresh_keeps_ordered_input (st : Dashboard) (got : result response)
    (now : Q) (l : list value) (wallet : value)
    (Hfetch : fetch_result got = Ok (VList l, wallet))
    (Hnames : Forall (fun s => named_record s = true) l)
    (Hordered : StronglySorted name_le l) :
  exists st',
    refresh_widgets lt_other float_add st got now = Ok st' /\ displayed st' = l.
Proof.
  assert (Hsort : sorted lt_other (VList l)
                    (fun s => get s "name" (VStr EmptyString)) = Ok l).
  { unfold sorted. simpl. rewrite (keys_of_named l Hnames). simpl.
    rewrite (sort_keyed_ordered (map keyed l) []); simpl.
    - rewrite map_map. simpl. rewrite map_id. reflexivity.
    - exact (keyed_str_keyed l Hnames).
    - exact (keyed_ordered l Hordered). }
  eexists. split.
  - exact (refresh_widgets_completes lt_other float_add st got now _ _ l Hfetch Hsort).
  - unfold displayed. cbn [body].
    rewrite rows_of_concat, map_map. simpl. apply map_id.
Qed.

Lemma keys_stop_at_non_dict (dflt : value) (pre : list value) (x : value)
    (post : list value) :
  Forall (fun s => is_dict s = true) pre -> is_dict x = false ->
  map_result (fun s => k <- get s "name" dflt ;; Ok (k, s))
             (pre ++ x :: post)
  = Raise (AttributeError x "get").
Proof.
  intros Hpre Hx. induction Hpre as [| s pre Hs _ IH]; simpl.
  - rewrite (get_not_dict x _ _ Hx). reflexivity.
  - destruct s; try discriminate Hs. simpl. rewrite IH. reflexivity.
Qed.

(** X7: when the fetched list holds an item that is not an object, the
    refresh cycle raises the [AttributeError] of the first such item, and
    so displays nothing new. *)
Theorem refresh_non_object_item (st : Dashboard) (got : result response)
    (now : Q) (pre : list value) (x : value) (post : list value)
    (wallet : value)
    (Hfetch : fetch_result got = Ok (VList (pre ++ x :: post), wallet))
    (Hpre : Forall (fun s => is_dict s = true) pre)
    (Hx : is_dict x = false) :
  refresh_widgets lt_other float_add st got now
  = Raise (mkExn "AttributeError"
                 ("'" ++ type_name x ++ "' object has no attribute 'get'")
                 true).
Proof.
  apply (refresh_sort_raises st got now _ wallet _ Hfetch).
  unfold sorted. simpl.
  rewrite (keys_stop_at_non_dict _ pre x post Hpre Hx). reflexivity.
Qed.

(** X8: when the field [synchronizers] is [null], a boolean or a number
    and [success] let it through, the refresh cycle raises the
    [TypeError] of iterating over it. *)
Theorem refresh_not_iterable (st : Dashboard) (got : result response)
    (now : Q) (syncs wallet : value)
    (Hfetch : fetch_result got = Ok (syncs, wallet))
    (Hsyncs : not_iterable syncs = true) :
  refresh_widgets lt_other float_add st got now
  = Raise (mkExn "TypeError"
                 ("'" ++ type_name syncs ++ "' object is not iterable") true).
Proof.
  apply (refresh_sort_raises st got now syncs wallet _ Hfetch).
  destruct syncs; try discriminate Hsyncs; reflexivity.
Qed.

Lemma py_lt_null_left (b : value) :
  raises_TypeError (py_lt lt_other VNone b).
Proof. destruct b; eexists; reflexivity. Qed.

Lemma py_lt_null_right (a : value) :
  match a with VStr _ | VNone => True | _ => False end ->
  raises_TypeError (py_lt lt_other a VNone).
Proof. destruct a; intros H; try (now elim H); eexists; reflexivity. Qed.

Lemma insert_null_key (x : value * value) (acc : list (value * value)) :
  null_key x -> acc <> [] -> raises_TypeError (insert_keyed lt_other x acc).
Proof.
  intros Hx Hacc. destruct acc as [| y rest]; [now elim Hacc |].
  simpl. unfold null_key in Hx. rewrite Hx.
  destruct (py_lt_null_left (fst y)) as [msg ->]. exists msg. reflexivity.
Qed.

Lemma insert_after_null_key (x y : value * value) :
  nullable_key x -> null_key y ->
  raises_TypeError (insert_keyed lt_other x [y]).
Proof.
  intros Hx Hy. simpl. unfold null_key in Hy. rewrite Hy.
  destruct (py_lt_null_right (fst x) Hx) as [msg ->]. exists msg.
  reflexivity.
Qed.

Lemma insert_str_keyed (x : value * value) (acc : list (value * value)) :
  str_keyed x -> Forall str_keyed acc ->
  exists r, insert_keyed lt_other x acc = Ok r /\
            Forall str_keyed r /\ r <> [].
Proof.
  intros Hx Hacc. induction Hacc as [| y rest Hy Hrest IH]; simpl.
  - exists [x]. repeat split; [repeat constructor; exact Hx | discriminate].
  - rewrite (py_lt_str lt_other _ _ Hx Hy). simpl.
    destruct (String.ltb _ _).
    + eexists. repeat split; [| discriminate].
      repeat constructor; assumption.
    + destruct IH as [r [-> [Hr _]]]. simpl.
      eexists. repeat split; [| discriminate]. constructor; assumption.
Qed.

Lemma nullable_key_cases (x : value * value) :
  nullable_key x -> str_keyed x \/ null_key x.
Proof.
  unfold nullable_key, str_keyed, null_key.
  destruct (fst x); intros H; try (now elim H); auto.
Qed.

Lemma sort_keyed_meets_null (l acc : list (value * value)) :
  Forall str_keyed acc -> acc <> [] ->
  Forall nullable_key l -> Exists null_key l ->
  raises_TypeError (sort_keyed lt_other acc l).
Proof.
  revert acc. induction l as [| x rest IH]; intros acc Hacc Hne Hl Hex.
  - inversion Hex.
  - inversion Hl as [| ? ? Hx Hrest]; subst. simpl.
    destruct (nullable_key_cases x Hx) as [Hstr | Hnull].
    + destruct (insert_str_keyed x acc Hstr Hacc) as [r [-> [Hr Hr']]].
      simpl. apply (IH r Hr Hr' Hrest).
      inversion Hex as [? ? Hnx | ? ? Hin]; subst; [| exact Hin].
      unfold str_keyed in Hstr. unfold null_key in Hnx.
      rewrite Hnx in Hstr. discriminate.
    + destruct (insert_null_key x acc Hnull Hne) as [msg ->].
      exists msg. reflexivity.
Qed.

Lemma sort_keyed_with_null (l : list (value * value)) :
  (2 <= List.length l)%nat ->
  Forall nullable_key l -> Exists null_key l ->
  raises_TypeError (sort_keyed lt_other [] l).
Proof.
  intros Hlen Hl Hex.
  destruct l as [| x [| y rest]]; simpl in Hlen; try lia.
  inversion Hl as [| ? ? Hx Hl']; subst.
  inversion Hl' as [| ? ? Hy Hrest]; subst.
  change (sort_keyed lt_other [] (x :: y :: rest))
    with (sort_keyed lt_other [x] (y :: rest)).
  destruct (nullable_key_cases x Hx) as [Hstr | Hnull].
  - apply sort_keyed_meets_null; auto; [discriminate |].
    inversion Hex as [? ? Hnx | ? ? Hin]; subst; [| exact Hin].
    unfold str_keyed in Hstr. unfold null_key in Hnx.
    rewrite Hnx in Hstr. discriminate.
  - change (sort_keyed lt_other [x] (y :: rest))
      with (acc' <- insert_keyed lt_other y [x] ;;
            sort_keyed lt_other acc' rest).
    destruct (insert_after_null_key y x Hy Hnull) as [msg ->].
    exists msg. reflexivity.
Qed.

Lemma keys_of_dicts (l : list value) :
  Forall (fun s => is_dict s = true) l ->
  map_result (fun s => k <- get s "name" (VStr EmptyString) ;; Ok (k, s)) l
  = Ok (map keyed l).
Proof.
  induction 1 as [| s l Hs _ IH]; simpl; [reflexivity |].
  rewrite IH. destruct s; try discriminate Hs. reflexivity.
Qed.

(** X9: when two or more records are fetched, their names being absent,
    strings or [null], and one name is [null], the refresh cycle raises
    a [TypeError]: a single [null] name among several records stops the
    display from being rebuilt. *)
Theorem refresh_null_name (st : Dashboard) (got : result response) (now : Q)
    (l : list value) (wallet : value)
    (Hfetch : fetch_result got = Ok (VList l, wallet))
    (Hcount : (2 <= List.length l)%nat)
    (Hnames : Forall (fun s => nullable_name s = true) l)
    (Hnull : Exists (fun s => null_name s = true) l) :
  raises_TypeError (refresh_widgets lt_other float_add st got now).
Proof.
  assert (Hdicts : Forall (fun s => is_dict s = true) l).
  { rewrite Forall_forall in Hnames |- *. intros s Hs.
    specialize (Hnames s Hs). unfold nullable_name in Hnames.
    apply andb_prop in Hnames. exact (proj1 Hnames). }
  assert (Hsort : raises_TypeError
            (sorted lt_other (VList l)
                    (fun s => get s "name" (VStr EmptyString)))).
  { unfold sorted. simpl. rewrite (keys_of_dicts l Hdicts). simpl.
    destruct (sort_keyed_with_null (map keyed l)) as [msg ->].
    - rewrite length_map. exact Hcount.
    - rewrite Forall_forall in Hnames |- *. intros p Hp.
      apply in_map_iff in Hp. destruct Hp as [s [<- Hs]].
      specialize (Hnames s Hs). unfold nullable_name in Hnames.
      apply andb_prop in Hnames. destruct Hnames as [_ Hn].
      unfold nullable_key, keyed. simpl.
      destruct (name_of s); try discriminate Hn; exact I.
    - apply Exists_exists in Hnull. destruct Hnull as [s [Hs Hn]].
      apply Exists_exists. exists (keyed s). split.
      + apply in_map. exact Hs.
      + unfold null_name in Hn. apply andb_prop in Hn.
        destruct Hn as [_ Hn]. unfold null_key, keyed. simpl.
        destruct (name_of s); try discriminate Hn. reflexivity.
    - exists msg. reflexivity. }
  destruct Hsort as [msg Hsort]. exists msg.
  exact (refresh_sort_raises st got now _ wallet _ Hfetch Hsort).
Qed.

Lemma render_dict (d : list (string * value)) :
  exists rows,
    render str_other (mkSynchronizerWidget (VDict d)) = Ok rows /\
    map fst rows = ["[bold]id[/]"; "[bold]key[/]"; "[bold]name[/]";
                    "[bold]isEnabled[/]"].
Proof.
  unfold render. simpl.
  destruct (dict_get d "id"), (dict_get d "key"), (dict_get d "name"),
    (dict_get d "isEnabled"); eexists; split; reflexivity.
Qed.

Lemma refresh_displays_dicts (st st' : Dashboard) (got : result response)
    (now : Q) :
  refresh_widgets lt_other float_add st got now = Ok st' ->
  Forall (fun s => is_dict s = true) (displayed st').
Proof.
  intros Hrefresh. pose proof (refresh_widgets_outcome st got now) as H.
  rewrite Hrefresh in H.
  destruct H as [syncs [wallet [ordered [_ [Hsort ->]]]]].
  unfold displayed. cbn [body].
  rewrite rows_of_concat, map_map. simpl. rewrite map_id.
  exact (sorted_items_dicts syncs ordered Hsort).
Qed.

Lemma run_displays_dicts (evs : list event) :
  forall st st',
    Forall (fun s => is_dict s = true) (displayed st) ->
    run lt_other float_add st evs = Ok st' ->
    Forall (fun s => is_dict s = true) (displayed st').
Proof.
  induction evs as [| ev rest IH]; intros st st' Hst; simpl.
  - intros H. injection H as <-. exact Hst.
  - destruct ev as [got now | now]; simpl.
    + destruct (refresh_widgets lt_other float_add st got now) as [st1 |] eqn:Hr;
        simpl; try discriminate.
      apply IH. exact (refresh_displays_dicts st st1 got now Hr).
    + apply IH. exact Hst.
Qed.

(** X10: every card on display after [on_mount] and any refreshes and
    ticks that completed renders without raising, as four rows labelled
    [id], [key], [name] and [isEnabled] in this order: an item that could
    not be rendered never gets mounted. *)
Theorem mounted_cards_render (header_class : option (option value))
    (created : Q) (got : result response) (now : Q) (evs : list event)
    (st0 st : Dashboard)
    (Hmount : on_mount lt_other float_add header_class created got now = Ok st0)
    (Hrun : run lt_other float_add st0 evs = Ok st) :
  Forall (fun w => exists rows,
            render str_other w = Ok rows /\
            map fst rows = ["[bold]id[/]"; "[bold]key[/]"; "[bold]name[/]";
                            "[bold]isEnabled[/]"])
         (List.concat (body st)).
Proof.
  unfold on_mount in Hmount.
  pose proof (run_displays_dicts evs st0 st
                (refresh_displays_dicts _ _ _ _ Hmount) Hrun) as Hd.
  unfold displayed in Hd. rewrite Forall_forall in Hd |- *.
  intros w Hw. specialize (Hd (data w) (in_map data _ w Hw)).
  destruct w as [v]. simpl in Hd. destruct v; try discriminate Hd.
  apply render_dict.
Qed.

(** X11: with the [Static] fallback header, or a [Header] class without
    [sub_title], no refresh or tick ever changes the header: the wallet
    of the owner is fetched and never shown. *)
Theorem plain_header_never_changes (st st' : Dashboard) (evs : list event)
    (Hheader : sub_title_of (header st) = None)
    (Hrun : run lt_other float_add st evs = Ok st') :
  header st' = header st.
Proof.
  revert st st' Hheader Hrun.
  induction evs as [| ev rest IH]; intros st st' Hh; simpl.
  - intros H. injection H as <-. reflexivity.
  - destruct ev as [got now | now]; simpl.
    + pose proof (refresh_widgets_outcome st got now) as Ho.
      destruct (refresh_widgets lt_other float_add st got now) as [st1 |]; simpl;
        try discriminate.
      destruct Ho as [syncs [wallet [ordered [_ [_ ->]]]]].
      intros Hrun. apply IH in Hrun; cbn [header] in *.
      * rewrite Hrun. rewrite header_update.
        destruct (header st) as [[old |] | text]; try discriminate Hh;
          reflexivity.
      * rewrite header_update.
        destruct (header st) as [[old |] | text]; try discriminate Hh;
          reflexivity.
    + intros Hrun. apply IH in Hrun; [exact Hrun | exact Hh].
Qed.

(** X12: on a header that has [sub_title], a refresh cycle that
    completes sets it to the fetched wallet when that is truthy and to
    the empty string otherwise, so the subtitle is never [None], zero or
    an empty container. *)
Theorem refresh_sets_sub_title (st st' : Dashboard) (got : result response)
    (now : Q) (old syncs wallet : value)
    (Hheader : header st = TextualHeader (Some old))
    (Hfetch : fetch_result got = Ok (syncs, wallet))
    (Hrefresh : refresh_widgets lt_other float_add st got now = Ok st') :
  header st'
  = TextualHeader (Some (if truthy wallet then wallet else VStr EmptyString))
  /\ (forall v, sub_title_of (header st') = Some v ->
        truthy v = true \/ v = VStr EmptyString).
Proof.
  pose proof (refresh_widgets_outcome st got now) as H.
  rewrite Hrefresh in H.
  destruct H as [y [w [ordered [Hf [_ ->]]]]].
  rewrite Hfetch in Hf. injection Hf as <- <-.
  cbn [header]. rewrite header_update, Hheader. unfold py_or.
  split; [reflexivity |]. simpl. intros v Hv. injection Hv as <-.
  destruct (truthy wallet) eqn:Ht; auto.
Qed.

(** X13: the error stream only grows: a run of refreshes and ticks
    appends to what was printed before, with at most one call of [print]
    for each refresh and none for a tick. *)
Theorem run_appends_stderr (st st' : Dashboard) (evs : list event)
    (Hrun : run lt_other float_add st evs = Ok st') :
  exists added,
    stderr st' = (stderr st ++ added)%list /\
    (List.length added <= refreshes evs)%nat.
Proof.
  revert st st' Hrun.
  induction evs as [| ev rest IH]; intros st st'; simpl.
  - intros H. injection H as <-. exists []. rewrite app_nil_r.
    split; [reflexivity | simpl; lia].
  - destruct ev as [got now | now]; simpl.
    + pose proof (refresh_widgets_outcome st got now) as Ho.
      destruct (refresh_widgets lt_other float_add st got now) as [st1 |]; simpl;
        try discriminate.
      destruct Ho as [syncs [wallet [ordered [_ [_ ->]]]]].
      intros Hrun. destruct (IH _ _ Hrun) as [added [E Hlen]].
      cbn [stderr] in E. exists (fetch_log got ++ added)%list.
      rewrite E, <- app_assoc. split; [reflexivity |].
      rewrite length_app. pose proof (fetch_log_short got). lia.
    + intros Hrun. destruct (IH _ _ Hrun) as [added [E Hlen]].
      exists added. split; [exact E | exact Hlen].
Qed.

(** X14: whatever the clock readings are, also when they go back, the
    footer never shows a negative number after [on_mount]. *)
Theorem countdown_never_negative (header_class : option (option value))
    (created : Q) (got : result response) (now : Q) (evs : list event)
    (st0 st : Dashboard)
    (Hmount : on_mount lt_other float_add header_class created got now = Ok st0)
    (Hrun : run lt_other float_add st0 evs = Ok st) :
  0 <= footer_remaining st.
Proof.
  unfold on_mount in Hmount.
  apply refresh_widgets_resets in Hmount. destruct Hmount as [Hf _].
  assert (H0 : 0 <= footer_remaining st0)
    by (rewrite Hf; unfold REFRESH_EVERY; lia).
  clear Hf. revert st0 st H0 Hrun.
  induction evs as [| ev rest IH]; intros st0 st H0; simpl.
  - intros H. injection H as <-. exact H0.
  - destruct ev as [got' now' | now']; simpl.
    + destruct (refresh_widgets lt_other float_add st0 got' now') as [st1 |] eqn:Hr;
        simpl; try discriminate.
      apply IH. apply refresh_widgets_resets in Hr.
      destruct Hr as [-> _]. unfold REFRESH_EVERY. lia.
    + apply IH. apply Z.le_max_l.
Qed.

(** X15: a run of ticks leaves the state its last tick alone would
    leave: the value shown depends on the deadline and on the latest
    reading only, and the ticks touch nothing but the footer. *)
Theorem ticks_keep_last_reading (st : Dashboard) (readings : list Q) (t : Q) :
  run lt_other float_add st (tick_events (readings ++ [t])) = Ok (_tick st t).
Proof.
  unfold tick_events.
  revert st. induction readings as [| r rest IH]; intros st;
    cbn [app map run handle bind].
  - reflexivity.
  - rewrite (IH (_tick st r)). reflexivity.
Qed.

End RefreshOutcome.

(** * Further properties of the countdown and of the layout *)




Lemma append_cancel_left (p a b : string) : p ++ a = p ++ b -> a = b.
Proof.
  induction p as [| c p IH]; simpl; intros H; [exact H |].
  injection H as H. exact (IH H).
Qed.

Lemma append_length (a b : string) :
  String.length (a ++ b) = (String.length a + String.length b)%nat.
Proof. induction a as [| c a IH]; simpl; [| rewrite IH]; reflexivity. Qed.

Lemma append_cancel_right (a b s : string) : a ++ s = b ++ s -> a = b.
Proof.
  revert b. induction a as [| c a IH]; intros b H.
  - destruct b as [| d b]; [reflexivity |].
    apply (f_equal String.length) in H. simpl in H.
    rewrite append_length in H. lia.
  - destruct b as [| d b].
    + apply (f_equal String.length) in H. simpl in H.
      rewrite append_length in H. lia.
    + simpl in H. injection H as -> H. rewrite (IH b H). reflexivity.
Qed.

Lemma decimal_reads_back (n : Z) :
  int_of_text (NilZero.string_of_int (Z.to_int n)) = Some n.
Proof.
  unfold int_of_text. rewrite NilZero.isi.
  - simpl. rewrite DecimalZ.of_to. reflexivity.
  - destruct n; simpl; try discriminate.
    intros H. injection H as H.
    exact (DecimalPos.Unsigned.to_uint_nonnil _ H).
  - destruct n; simpl; try discriminate.
    intros H. injection H as H.
    exact (DecimalPos.Unsigned.to_uint_nonnil _ H).
Qed.

(** X17: the text of the footer tells the countdown apart: two values of
    [remaining] with the same text are the same value. *)
Theorem FooterBar_render_injective (a b : Z)
    (H : FooterBar_render a = FooterBar_render b) :
  a = b.
Proof.
  unfold FooterBar_render in H.
  apply append_cancel_left in H. apply append_cancel_right in H.
  apply (f_equal int_of_text) in H. rewrite !decimal_reads_back in H.
  injection H as H. exact H.
Qed.

Lemma FooterBar_render_injective_witness :
  Z.max 0 (py_int (599 # 10)) = 59.
Proof.
  apply FooterBar_render_injective. reflexivity.
Defined.

(** X18: [_populate_sync_rows] never touches the rows already mounted:
    on a body that was not cleared it leaves them in place and mounts the
    new rows after them, the same rows it mounts on a cleared body. *)
Theorem populate_keeps_mounted_rows (st : Dashboard) (syncs : list value) :
  body (_populate_sync_rows st syncs)
  = (body st ++ body (_populate_sync_rows (_clear_body st) syncs))%list.
Proof.
  rewrite body_populate_cleared. unfold _populate_sync_rows. cbn [body].
  exact (populate_loop_rows syncs (body st) None 0).
Qed.

Lemma rows_of_full {A : Type} (l : list A) :
  forall full last,
    rows_of l = (full ++ [last])%list ->
    Forall (fun r => List.length r = 3%nat) full /\
    (1 <= List.length last <= 3)%nat.
Proof.
  induction l as [| a | a b | a b c rest IH] using list_ind3;
    intros full last H.
  - destruct full; discriminate H.
  - destruct full as [| r [| r' full]]; try discriminate H.
    injection H as <-. split; [constructor | simpl; lia].
  - destruct full as [| r [| r' full]]; try discriminate H.
    injection H as <-. split; [constructor | simpl; lia].
  - cbn [rows_of] in H. destruct full as [| r full].
    + injection H as <- Hrest. split; [constructor | simpl; lia].
    + simpl in H. injection H as <- Hrest.
      destruct (IH full last Hrest) as [Hfull Hlast].
      split; [constructor; [reflexivity | exact Hfull] | exact Hlast].
Qed.

(** X19: of the rows mounted for a list of records, every one but the
    last holds exactly three cards, and the last holds one to three. *)
Theorem rows_full_but_last (st : Dashboard) (syncs : list value)
    (full : list row) (last : row)
    (H : body (_populate_sync_rows (_clear_body st) syncs)
         = (full ++ [last])%list) :
  Forall (fun r => List.length r = 3%nat) full /\
  (1 <= List.length last <= 3)%nat.
Proof.
  rewrite body_populate_cleared in H.
  exact (rows_of_full (map mkSynchronizerWidget syncs) full last H).
Qed.

Lemma rows_full_but_last_witness :
  let w := fun n => mkSynchronizerWidget (VInt n) in
  let last := [w 4] in
  Forall (fun r => List.length r = 3%nat) [[w 1; w 2; w 3]] /\
  (1 <= List.length last <= 3)%nat.
Proof.
  intros w last.
  apply (rows_full_but_last (compose_layout sum_exact None 0)
           [VInt 1; VInt 2; VInt 3; VInt 4] [[w 1; w 2; w 3]] last).
  reflexivity.
Defined.

(** * Examples for the further properties *)

Lemma refresh_displays_every_item_witness :
  let l := [VDict [("id", VInt 1); ("name", VNone)]] in
  let got := Ok (mkResponse 200 EmptyString
                   (Ok (VDict [("success", VBool true);
                               ("synchronizers", VList l)]))) in
  let st := compose_layout sum_exact None 1000 in
  exists st',
    refresh_widgets lt_unused sum_exact st got 1001 = Ok st' /\
    Permutation l (displayed st').
Proof.
  intros l got st. eexists. split; [reflexivity |].
  eapply (refresh_displays_every_item lt_unused sum_exact st _ got 1001%Q l VNone);
    reflexivity.
Defined.

Lemma refresh_keeps_ordered_input_witness :
  let sorted_l := [VDict [("id", VStr "2")];
                   VDict [("id", VStr "1"); ("name", VStr "Alpha")];
                   VDict [("id", VStr "3"); ("name", VStr "Beta")]] in
  let got := Ok (mkResponse 200 EmptyString
                   (Ok (VDict [("success", VBool true);
                               ("synchronizers", VList sorted_l)]))) in
  exists st',
    refresh_widgets lt_unused sum_exact (compose_layout sum_exact None 1000) got 1001 = Ok st' /\
    displayed st' = sorted_l.
Proof.
  intros sorted_l got.
  apply (refresh_keeps_ordered_input lt_unused sum_exact (compose_layout sum_exact None 1000)
           got 1001%Q sorted_l VNone).
  - reflexivity.
  - repeat constructor.
  - repeat constructor.
Defined.

Lemma refresh_non_object_item_witness :
  let l := [VDict [("name", VStr "a")]; VInt 5] in
  let got := Ok (mkResponse 200 EmptyString
                   (Ok (VDict [("success", VBool true);
                               ("synchronizers", VList l)]))) in
  refresh_widgets lt_unused sum_exact (compose_layout sum_exact None 1000) got 1001
  = Raise (mkExn "AttributeError" "'int' object has no attribute 'get'" true).
Proof.
  intros l got.
  apply (refresh_non_object_item lt_unused sum_exact (compose_layout sum_exact None 1000) got
           1001%Q [VDict [("name", VStr "a")]] (VInt 5) [] VNone).
  - reflexivity.
  - repeat constructor.
  - reflexivity.
Defined.

Lemma refresh_not_iterable_witness :
  let got := Ok (mkResponse 200 EmptyString
                   (Ok (VDict [("success", VBool true);
                               ("synchronizers", VNone)]))) in
  refresh_widgets lt_unused sum_exact (compose_layout sum_exact None 1000) got 1001
  = Raise (mkExn "TypeError" "'NoneType' object is not iterable" true).
Proof.
  intros got.
  apply (refresh_not_iterable lt_unused sum_exact (compose_layout sum_exact None 1000) got
           1001%Q VNone VNone); reflexivity.
Defined.

Lemma refresh_null_name_witness :
  let l := [VDict [("name", VStr "a")]; VDict [("name", VNone)];
            VDict [("id", VInt 3)]] in
  let got := Ok (mkResponse 200 EmptyString
                   (Ok (VDict [("success", VBool true);
                               ("synchronizers", VList l)]))) in
  raises_TypeError
    (refresh_widgets lt_unused sum_exact (compose_layout sum_exact None 1000) got 1001).
Proof.
  intros l got.
  apply (refresh_null_name lt_unused sum_exact (compose_layout sum_exact None 1000) got 1001%Q
           l VNone).
  - reflexivity.
  - simpl. lia.
  - repeat constructor.
  - apply Exists_cons_tl. apply Exists_cons_hd. reflexivity.
Defined.

Lemma mounted_cards_render_witness :
  let l := [VDict [("id", VInt 1)]; VDict [("name", VStr "a")]] in
  let got := Ok (mkResponse 200 EmptyString
                   (Ok (VDict [("success", VBool true);
                               ("synchronizers", VList l)]))) in
  exists st0 st,
    on_mount lt_unused sum_exact None 1000 got 1001 = Ok st0 /\
    run lt_unused sum_exact st0 [TickFired 1002] = Ok st /\
    Forall (fun w => exists rows,
              render str_unused w = Ok rows /\
              map fst rows = ["[bold]id[/]"; "[bold]key[/]"; "[bold]name[/]";
                              "[bold]isEnabled[/]"])
           (List.concat (body st)).
Proof.
  intros l got. eexists. eexists.
  split; [reflexivity |]. split; [reflexivity |].
  eapply (mounted_cards_render str_unused lt_unused sum_exact None 1000%Q got 1001%Q
            [TickFired 1002]); reflexivity.
Defined.

Lemma plain_header_never_changes_witness :
  let got := Ok (mkResponse 200 EmptyString
                   (Ok (VDict [("success", VBool true);
                               ("owner",
                                VDict [("walletAddress", VStr "0xABC")])]))) in
  let st := compose_layout sum_exact (Some None) 1000 in
  exists st',
    run lt_unused sum_exact st [RefreshFired got 1001; TickFired 1002] = Ok st' /\
    header st' = header st.
Proof.
  intros got st. eexists. split; [reflexivity |].
  eapply (plain_header_never_changes lt_unused sum_exact st _
            [RefreshFired got 1001; TickFired 1002]); reflexivity.
Defined.

Lemma refresh_sets_sub_title_witness :
  let got := Ok (mkResponse 200 EmptyString
                   (Ok (VDict [("success", VBool true);
                               ("owner",
                                VDict [("walletAddress", VInt 0)])]))) in
  let st := compose_layout sum_exact (Some (Some (VStr "0xABC"))) 1000 in
  exists st',
    refresh_widgets lt_unused sum_exact st got 1001 = Ok st' /\
    header st' = TextualHeader (Some (VStr EmptyString)).
Proof.
  intros got st. eexists. split; [reflexivity |].
  eapply (proj1 (refresh_sets_sub_title lt_unused sum_exact st _ got 1001%Q
                   (VStr "0xABC") (VList []) (VInt 0) eq_refl eq_refl
                   eq_refl)).
Defined.

Lemma run_appends_stderr_witness :
  let late := Raise (mkExn "ConnectTimeout" "timed out" true) in
  let st := mkDashboard (StaticHeader APP_TITLE) [] 60 1060 ["earlier"] in
  exists st' added,
    run lt_unused sum_exact st [RefreshFired late 1061; TickFired 1062] = Ok st' /\
    stderr st' = (stderr st ++ added)%list /\
    (List.length added <= 1)%nat.
Proof.
  intros late st.
  destruct (run_appends_stderr lt_unused sum_exact st
              (_tick (mkDashboard (StaticHeader APP_TITLE) [] 60 1121
                        ["earlier"; "[fetch] ConnectTimeout: timed out"])
                     1062)
              [RefreshFired late 1061; TickFired 1062] eq_refl)
    as [added [E Hlen]].
  eexists. exists added. split; [reflexivity |]. split; assumption.
Defined.

Lemma countdown_never_negative_witness :
  let got := Ok (mkResponse 200 EmptyString
                   (Ok (VDict [("success", VBool true)]))) in
  exists st0 st,
    on_mount lt_unused sum_exact None 1000 got 1001 = Ok st0 /\
    run lt_unused sum_exact st0 [TickFired 1100; TickFired 900] = Ok st /\
    footer_remaining st = 161 /\
    0 <= footer_remaining st.
Proof.
  intros got. eexists. eexists.
  split; [reflexivity |]. split; [reflexivity |]. split; [reflexivity |].
  eapply (countdown_never_negative lt_unused sum_exact None 1000%Q got 1001%Q
            [TickFired 1100; TickFired 900]); reflexivity.
Defined.
